(** * User Management API: a shallow embedding of [app/models.py] and
    [app/main.py], and the properties of its CRUD contract.

    Python integers are unbounded, so they are [Z].  A [str] is the
    [string] of its UTF-8 encoding, and [len] counts its code points, as
    Python's [len] and pydantic's [min_length] and [max_length] do.
    [datetime.now()] is an input of the
    handler that calls it.  The module-level globals [users_db] and
    [next_user_id] are threaded through every handler as an explicit state;
    [raise] is the [Raise] result.  A Python [dict] keeps insertion order and
    [get_users] depends on it, so [users_db] is an association list in
    insertion order. *)

From Stdlib Require Import ZArith List String Bool Lia.
Import ListNotations.

Local Open Scope string_scope.
Local Open Scope list_scope.
Local Open Scope Z_scope.

(** ** Python values *)

Definition datetime := Z.

(** [a == b] on values that are a [str] or [None]. *)
Definition str_eq (a b : option string) : bool :=
  match a, b with
  | Some x, Some y => String.eqb x y
  | None, None => true
  | _, _ => false
  end.

(** A byte [10xxxxxx] continues a character; every other byte starts one. *)
Definition is_continuation (c : Ascii.ascii) : bool :=
  match c with
  | Ascii.Ascii _ _ _ _ _ _ b6 b7 => b7 && negb b6
  end.

Fixpoint code_points (s : string) : nat :=
  match s with
  | EmptyString => 0%nat
  | String c rest =>
      ((if is_continuation c then 0 else 1) + code_points rest)%nat
  end.

(** [len(s)]: the number of characters (code points), not of bytes. *)
Definition len (s : string) : Z := Z.of_nat (code_points s).

(** [l[start:stop]]: a negative index counts from the end, and both ends
    are clamped to the list. *)
Definition slice_index (n i : Z) : Z :=
  if i <? 0 then Z.max 0 (i + n) else Z.min i n.

Definition slice {A : Type} (l : list A) (start stop : Z) : list A :=
  let n := Z.of_nat (List.length l) in
  let a := slice_index n start in
  let b := slice_index n stop in
  firstn (Z.to_nat (b - a)) (skipn (Z.to_nat a) l).

(** ** Insertion-ordered dictionaries with integer keys

    The entries stand in insertion order.  The operations below keep the
    keys distinct when they are ([registry_ok] shows it for every state the
    service reaches), and each is written so that it also makes sense on a
    list that is not a dictionary. *)

Section Dict.
Context {V : Type}.

Definition dict := list (Z * V).

Fixpoint dict_get (k : Z) (d : dict) : option V :=
  match d with
  | [] => None
  | (k', v) :: d' => if k' =? k then Some v else dict_get k d'
  end.

(** [k in d] *)
Definition dict_contains (k : Z) (d : dict) : bool :=
  match dict_get k d with Some _ => true | None => false end.

(** [d[k] = v]: an existing key keeps its position, a new key goes last. *)
Fixpoint dict_set (k : Z) (v : V) (d : dict) : dict :=
  match d with
  | [] => [(k, v)]
  | (k', v') :: d' =>
      if k' =? k then (k, v) :: d' else (k', v') :: dict_set k v d'
  end.

(** [del d[k]] *)
Definition dict_del (k : Z) (d : dict) : dict :=
  filter (fun kv => negb (fst kv =? k)) d.

Definition dict_keys (d : dict) : list Z := map fst d.
Definition dict_values (d : dict) : list V := map snd d.
Definition dict_items (d : dict) : list (Z * V) := d.

(** Mutation of the object stored under [k]; the dictionary holds a
    reference to it, so the entry changes where it stands. *)
Definition dict_mutate (k : Z) (f : V -> V) (d : dict) : dict :=
  map (fun kv => if fst kv =? k then (fst kv, f (snd kv)) else kv) d.
End Dict.

Arguments dict : clear implicits.

(** ** models.py *)

Module UserCreate.
(** [UserBase] with nothing added. *)
Record t := mk { name : string; email : string; age : Z }.

(** The [Field] constraints; the result lists the offending fields. *)
Definition validate (u : t) : list string :=
  (if (1 <=? len (name u)) && (len (name u) <=? 100) then [] else ["name"])
  ++ (if (0 <=? age u) && (age u <=? 150) then [] else ["age"]).
End UserCreate.

Module User.
(** The attributes of a stored [User] object.  [update_user] assigns them
    with [setattr], which does not validate, so a slot declared [str],
    [int] or [bool] holds either such a value or [None]. *)
Record t := mk {
  id : Z;
  name : option string;
  email : option string;
  age : option Z;
  created_at : datetime;
  is_active : option bool
}.
End User.

Module UserUpdate.
(** An [Optional] field of a request body is either left out, or supplied
    with a value that may be [null]. *)
Inductive slot (A : Type) := Unset | Supplied (v : option A).
Arguments Unset {A}.
Arguments Supplied {A} v.

Record t := mk {
  name : slot string;
  email : slot string;
  age : slot Z;
  is_active : slot bool
}.

(** The [Field] constraints apply to a supplied value that is not [None]. *)
Definition validate (u : t) : list string :=
  (match name u with
   | Supplied (Some s) =>
       if (1 <=? len s) && (len s <=? 100) then [] else ["name"]
   | _ => []
   end)
  ++ (match age u with
      | Supplied (Some a) =>
          if (0 <=? a) && (a <=? 150) then [] else ["age"]
      | _ => []
      end).

(** One entry of [user_update.dict(exclude_unset=True)]. *)
Inductive item :=
| Name (v : option string)
| Email (v : option string)
| Age (v : option Z)
| IsActive (v : option bool).

Definition entry {A : Type} (mkitem : option A -> item) (s : slot A)
  : list item :=
  match s with Unset => [] | Supplied v => [mkitem v] end.

(** [dict(exclude_unset=True)]: the supplied fields, in declaration order. *)
Definition dict_exclude_unset (u : t) : list item :=
  entry Name (name u) ++ entry Email (email u)
  ++ entry Age (age u) ++ entry IsActive (is_active u).

(** ["email" in update_data], with [update_data["email"]] when it is. *)
Fixpoint lookup_email (update_data : list item) : option (option string) :=
  match update_data with
  | [] => None
  | Email v :: _ => Some v
  | _ :: rest => lookup_email rest
  end.
End UserUpdate.

Module HealthCheck.
Record t := mk { status : string; timestamp : datetime; version : string }.
End HealthCheck.

(** [setattr(current_user, field, value)] *)
Definition setattr (u : User.t) (it : UserUpdate.item) : User.t :=
  match it with
  | UserUpdate.Name v =>
      User.mk (User.id u) v (User.email u) (User.age u)
              (User.created_at u) (User.is_active u)
  | UserUpdate.Email v =>
      User.mk (User.id u) (User.name u) v (User.age u)
              (User.created_at u) (User.is_active u)
  | UserUpdate.Age v =>
      User.mk (User.id u) (User.name u) (User.email u) v
              (User.created_at u) (User.is_active u)
  | UserUpdate.IsActive v =>
      User.mk (User.id u) (User.name u) (User.email u) (User.age u)
              (User.created_at u) v
  end.

(** ** main.py: state, exceptions and the handler monad *)

Record globals := mkGlobals {
  users_db : dict User.t;
  next_user_id : Z
}.

Definition initial : globals := mkGlobals [] 1.

Inductive exn :=
| HTTPException (status_code : Z) (detail : string)
| KeyError (key : Z).

Inductive result (A : Type) :=
| Return (a : A)
| Raise (e : exn).
Arguments Return {A} a.
Arguments Raise {A} e.

Definition handler (A : Type) := globals -> result A * globals.

Definition ret {A : Type} (a : A) : handler A := fun g => (Return a, g).

Definition raise {A : Type} (e : exn) : handler A := fun g => (Raise e, g).

Definition bind {A B : Type} (m : handler A) (k : A -> handler B)
  : handler B :=
  fun g =>
    match m g with
    | (Return a, g') => k a g'
    | (Raise e, g') => (Raise e, g')
    end.

Declare Scope handler_scope.
Delimit Scope handler_scope with handler.
Notation "x <- m ;; k" := (bind m (fun x => k))
  (at level 61, m at next level, right associativity) : handler_scope.
Notation "m ;; k" := (bind m (fun _ => k))
  (at level 61, right associativity) : handler_scope.
Local Open Scope handler_scope.

Definition read_users_db : handler (dict User.t) :=
  fun g => (Return (users_db g), g).

Definition read_next_user_id : handler Z :=
  fun g => (Return (next_user_id g), g).

Definition write_users_db (d : dict User.t) : handler unit :=
  fun g => (Return tt, mkGlobals d (next_user_id g)).

Definition write_next_user_id (n : Z) : handler unit :=
  fun g => (Return tt, mkGlobals (users_db g) n).

(** [users_db[k]] *)
Definition getitem (k : Z) : handler User.t :=
  d <- read_users_db ;;
  match dict_get k d with
  | Some u => ret u
  | None => raise (KeyError k)
  end.

(** [for x in l: body(x)] *)
Fixpoint for_each {A : Type} (l : list A) (body : A -> handler unit)
  : handler unit :=
  match l with
  | [] => ret tt
  | x :: l' => body x ;; for_each l' body
  end.

Definition HTTP_200_OK := 200.
Definition HTTP_201_CREATED := 201.
Definition HTTP_204_NO_CONTENT := 204.
Definition HTTP_400_BAD_REQUEST := 400.
Definition HTTP_404_NOT_FOUND := 404.
Definition HTTP_422_UNPROCESSABLE_ENTITY := 422.
Definition HTTP_500_INTERNAL_SERVER_ERROR := 500.

Definition email_already_registered : exn :=
  HTTPException HTTP_400_BAD_REQUEST "Email already registered".

Definition user_not_found : exn :=
  HTTPException HTTP_404_NOT_FOUND "User not found".

(** A reference to a stored [User] object.  Every such object lives in
    exactly one slot of [users_db], so the reference is the key of the slot:
    reading through it sees the assignments made through it. *)
Definition ref := Z.

(** [current_user = users_db[user_id]] *)
Definition getitem_ref (k : Z) : handler ref :=
  getitem k ;; ret k.

(** [setattr(current_user, field, value)] on the stored object. *)
Definition setattr_ref (r : ref) (it : UserUpdate.item) : handler unit :=
  d <- read_users_db ;;
  write_users_db (dict_mutate r (fun u => setattr u it) d).

(** ** main.py: the route handlers *)

Definition root : handler (list (string * string)) :=
  ret [("message",
        "Welcome to the User Management API! Visit /docs for Swagger documentation.")].

Definition health_check (now : datetime) : handler HealthCheck.t :=
  ret (HealthCheck.mk "healthy" now "1.0.0").

Definition create_user (user : UserCreate.t) (now : datetime)
  : handler User.t :=
  db <- read_users_db ;;
  for_each (dict_values db) (fun existing_user =>
    if str_eq (User.email existing_user) (Some (UserCreate.email user))
    then raise email_already_registered
    else ret tt) ;;
  id <- read_next_user_id ;;
  let new_user :=
    User.mk id (Some (UserCreate.name user)) (Some (UserCreate.email user))
            (Some (UserCreate.age user)) now (Some true) in
  db <- read_users_db ;;
  key <- read_next_user_id ;;
  write_users_db (dict_set key new_user db) ;;
  n <- read_next_user_id ;;
  write_next_user_id (n + 1) ;;
  ret new_user.

Definition get_users (skip limit : Z) : handler (list User.t) :=
  db <- read_users_db ;;
  let users_list := dict_values db in
  ret (slice users_list skip (skip + limit)).

Definition get_user (user_id : Z) : handler User.t :=
  db <- read_users_db ;;
  if negb (dict_contains user_id db) then raise user_not_found
  else getitem user_id.

Definition update_user (user_id : Z) (user_update : UserUpdate.t)
  : handler User.t :=
  db <- read_users_db ;;
  if negb (dict_contains user_id db) then raise user_not_found
  else
    current_user <- getitem_ref user_id ;;
    let update_data := UserUpdate.dict_exclude_unset user_update in
    match UserUpdate.lookup_email update_data with
    | Some new_email =>
        db <- read_users_db ;;
        for_each (dict_items db) (fun '(uid, existing_user) =>
          if negb (uid =? user_id)
             && str_eq (User.email existing_user) new_email
          then raise email_already_registered
          else ret tt)
    | None => ret tt
    end ;;
    for_each update_data (fun field_value =>
      setattr_ref current_user field_value) ;;
    (* [return current_user]: the object as the loop left it *)
    getitem current_user.

(** What [delete_user] builds itself: [JSONResponse(status_code, content)]. *)
Record JSONResponse := mkJSONResponse {
  status_code : Z;
  content : list (string * string)
}.

Definition delete_user (user_id : Z) : handler JSONResponse :=
  db <- read_users_db ;;
  if negb (dict_contains user_id db) then raise user_not_found
  else
    db <- read_users_db ;;
    write_users_db (dict_del user_id db) ;;
    ret (mkJSONResponse HTTP_204_NO_CONTENT
           [("message", "User deleted successfully")]).

(** ** The application: validation, routing, exception handlers *)

Inductive body :=
| Object (fields : list (string * string))
| UserBody (u : User.t)
| UsersBody (l : list User.t)
| HealthBody (h : HealthCheck.t)
| ValidationErrors (fields : list string).

Record response := mkResponse { status : Z; payload : body }.

(** An exception that leaves a handler: [HTTPException] goes out with its
    own status and detail, anything else through
    [general_exception_handler]. *)
Definition exception_response (e : exn) : response :=
  match e with
  | HTTPException code detail => mkResponse code (Object [("detail", detail)])
  | KeyError _ =>
      mkResponse HTTP_500_INTERNAL_SERVER_ERROR
                 (Object [("detail", "Internal server error")])
  end.

(** Run a handler and turn its outcome into a response.  The payload is the
    value the handler returned; how it is written on the wire is not
    modelled. *)
Definition serve {A : Type} (m : handler A) (render : A -> response)
  (g : globals) : response * globals :=
  match m g with
  | (Return a, g') => (render a, g')
  | (Raise e, g') => (exception_response e, g')
  end.

Inductive request :=
| GET_root
| GET_health (now : datetime)
| POST_users (user : UserCreate.t) (now : datetime)
| GET_users (skip limit : option Z)
| GET_user (user_id : Z)
| PUT_user (user_id : Z) (user_update : UserUpdate.t)
| DELETE_user (user_id : Z).

Definition default (d : Z) (q : option Z) : Z :=
  match q with Some v => v | None => d end.

Definition app (r : request) (g : globals) : response * globals :=
  match r with
  | GET_root => serve root (fun m => mkResponse HTTP_200_OK (Object m)) g
  | GET_health now =>
      serve (health_check now)
            (fun h => mkResponse HTTP_200_OK (HealthBody h)) g
  | POST_users user now =>
      match UserCreate.validate user with
      | [] => serve (create_user user now)
                    (fun u => mkResponse HTTP_201_CREATED (UserBody u)) g
      | errs =>
          (mkResponse HTTP_422_UNPROCESSABLE_ENTITY (ValidationErrors errs), g)
      end
  | GET_users skip limit =>
      serve (get_users (default 0 skip) (default 100 limit))
            (fun l => mkResponse HTTP_200_OK (UsersBody l)) g
  | GET_user user_id =>
      serve (get_user user_id)
            (fun u => mkResponse HTTP_200_OK (UserBody u)) g
  | PUT_user user_id user_update =>
      match UserUpdate.validate user_update with
      | [] => serve (update_user user_id user_update)
                    (fun u => mkResponse HTTP_200_OK (UserBody u)) g
      | errs =>
          (mkResponse HTTP_422_UNPROCESSABLE_ENTITY (ValidationErrors errs), g)
      end
  | DELETE_user user_id =>
      serve (delete_user user_id)
            (fun j => mkResponse (status_code j) (Object (content j))) g
  end.

(** The states the service can be in: those a sequence of requests leads to
    from the empty registry. *)
Inductive reachable_from (g : globals) : globals -> Prop :=
| reach_refl : reachable_from g g
| reach_step g' r :
    reachable_from g g' -> reachable_from g (snd (app r g')).

Definition reachable : globals -> Prop := reachable_from initial.

(** ** Facts about values and dictionaries *)

Lemma str_eq_spec (a b : option string) : str_eq a b = true <-> a = b.
Proof.
  destruct a as [x|], b as [y|]; simpl; try (split; congruence).
  rewrite String.eqb_eq. split; congruence.
Qed.

Lemma str_eq_refl (a : option string) : str_eq a a = true.
Proof. now apply str_eq_spec. Qed.

Section DictFacts.
Context {V : Type}.
Implicit Types (d : dict V) (k : Z) (v : V).

Lemma dict_get_set_same k v d : dict_get k (dict_set k v d) = Some v.
Proof.
  induction d as [|[k' v'] d IH]; simpl.
  - now rewrite Z.eqb_refl.
  - destruct (k' =? k) eqn:E; simpl.
    + now rewrite Z.eqb_refl.
    + now rewrite E.
Qed.

Lemma dict_get_set_other k k' v d :
  k <> k' -> dict_get k' (dict_set k v d) = dict_get k' d.
Proof.
  intros Hne. induction d as [|[k0 v0] d IH]; simpl.
  - destruct (k =? k') eqn:E; [apply Z.eqb_eq in E; contradiction|easy].
  - destruct (k0 =? k) eqn:E; simpl.
    + apply Z.eqb_eq in E; subst k0.
      destruct (k =? k') eqn:E'; [apply Z.eqb_eq in E'; contradiction|easy].
    + now rewrite IH.
Qed.

Lemma dict_get_none k d : dict_get k d = None <-> ~ In k (dict_keys d).
Proof.
  induction d as [|[k' v'] d IH]; simpl.
  - tauto.
  - destruct (k' =? k) eqn:E.
    + apply Z.eqb_eq in E. split; [discriminate|intros H; exfalso; auto].
    + apply Z.eqb_neq in E. rewrite IH. tauto.
Qed.

Lemma dict_get_in k v d : dict_get k d = Some v -> In (k, v) d.
Proof.
  induction d as [|[k' v'] d IH]; simpl; [discriminate|].
  destruct (k' =? k) eqn:E.
  - apply Z.eqb_eq in E. intros [= ->]. subst. now left.
  - auto.
Qed.

Lemma dict_in_get k v d :
  NoDup (dict_keys d) -> In (k, v) d -> dict_get k d = Some v.
Proof.
  induction d as [|[k' v'] d IH]; simpl; [tauto|].
  intros Hnd [Heq|Hin].
  - injection Heq as -> ->. now rewrite Z.eqb_refl.
  - inversion Hnd as [|? ? Hnotin Hnd']; subst.
    destruct (k' =? k) eqn:E.
    + apply Z.eqb_eq in E; subst k'. exfalso. apply Hnotin.
      change k with (fst (k, v)). now apply in_map.
    + auto.
Qed.

Lemma dict_contains_true k d :
  dict_contains k d = true <-> In k (dict_keys d).
Proof.
  unfold dict_contains. destruct (dict_get k d) eqn:E.
  - split; [intros _|easy].
    apply dict_get_in in E. change k with (fst (k, v)). now apply in_map.
  - apply dict_get_none in E. split; [discriminate|contradiction].
Qed.

Lemma dict_set_fresh k v d :
  ~ In k (dict_keys d) -> dict_set k v d = d ++ [(k, v)].
Proof.
  induction d as [|[k' v'] d IH]; simpl; [easy|].
  intros Hnotin. destruct (k' =? k) eqn:E.
  - apply Z.eqb_eq in E. exfalso; auto.
  - rewrite IH; auto.
Qed.

Lemma dict_keys_del k d :
  dict_keys (dict_del k d) = filter (fun k' => negb (k' =? k)) (dict_keys d).
Proof.
  unfold dict_del, dict_keys.
  induction d as [|[k' v'] d IH]; simpl; [easy|].
  destruct (k' =? k); simpl; now rewrite IH.
Qed.

Lemma dict_in_del k k' v d :
  In (k', v) (dict_del k d) <-> In (k', v) d /\ k' <> k.
Proof.
  unfold dict_del. rewrite filter_In. simpl.
  rewrite negb_true_iff, Z.eqb_neq. tauto.
Qed.

Lemma dict_get_del_same k d : dict_get k (dict_del k d) = None.
Proof.
  apply dict_get_none. rewrite dict_keys_del, filter_In.
  rewrite Z.eqb_refl. simpl. intros [_ H]. discriminate.
Qed.

Lemma dict_keys_mutate k (f : V -> V) d :
  dict_keys (dict_mutate k f d) = dict_keys d.
Proof.
  unfold dict_keys, dict_mutate. rewrite map_map. apply map_ext.
  intros [k' v']; simpl. now destruct (k' =? k).
Qed.

Lemma dict_get_mutate_same k (f : V -> V) d :
  dict_get k (dict_mutate k f d) = option_map f (dict_get k d).
Proof.
  induction d as [|[k' v'] d IH]; simpl; [easy|].
  destruct (k' =? k) eqn:E; simpl; now rewrite E.
Qed.

Lemma dict_get_mutate_other k k' (f : V -> V) d :
  k <> k' -> dict_get k' (dict_mutate k f d) = dict_get k' d.
Proof.
  intros Hne. induction d as [|[k0 v0] d IH]; simpl; [easy|].
  destruct (k0 =? k) eqn:E; simpl.
  - apply Z.eqb_eq in E; subst k0.
    destruct (k =? k') eqn:E'; [apply Z.eqb_eq in E'; contradiction|easy].
  - now rewrite IH.
Qed.

Lemma dict_mutate_id k d : dict_mutate k (fun v => v) d = d.
Proof.
  unfold dict_mutate. rewrite <- (map_id d) at 2. apply map_ext.
  intros [k' v']; simpl. now destruct (k' =? k).
Qed.

Lemma dict_mutate_mutate k (f1 f2 : V -> V) d :
  dict_mutate k f2 (dict_mutate k f1 d) = dict_mutate k (fun v => f2 (f1 v)) d.
Proof.
  unfold dict_mutate. rewrite map_map. apply map_ext.
  intros [k' v']; simpl. destruct (k' =? k) eqn:E; simpl; now rewrite E.
Qed.

Lemma dict_mutate_ext k (f1 f2 : V -> V) d :
  (forall v, f1 v = f2 v) -> dict_mutate k f1 d = dict_mutate k f2 d.
Proof.
  intros H. unfold dict_mutate. apply map_ext.
  intros [k' v']; simpl. now rewrite H.
Qed.

Lemma dict_in_mutate k (f : V -> V) k' v' d :
  In (k', v') (dict_mutate k f d) ->
  exists v, In (k', v) d /\ v' = (if k' =? k then f v else v).
Proof.
  unfold dict_mutate. rewrite in_map_iff. intros [[k0 v0] [Heq Hin]].
  simpl in Heq. destruct (k0 =? k) eqn:E; injection Heq as <- <-;
    exists v0; now rewrite E.
Qed.
End DictFacts.

(** ** What each handler computes *)

(** A loop whose body only tests and raises. *)
Lemma for_each_guard {A : Type} (p : A -> bool) (e : exn)
  (body : A -> handler unit) (l : list A) (g : globals) :
  (forall x g', body x g' = if p x then (Raise e, g') else (Return tt, g')) ->
  for_each l body g = if existsb p l then (Raise e, g) else (Return tt, g).
Proof.
  intros Hbody. induction l as [|x l IH]; simpl; [reflexivity|].
  unfold bind. rewrite Hbody. destruct (p x); simpl; [reflexivity|apply IH].
Qed.

(** The stored object after the [setattr] loop. *)
Definition apply_update (update_data : list UserUpdate.item) (u : User.t)
  : User.t :=
  fold_left setattr update_data u.

Lemma for_each_setattr (r : ref) (update_data : list UserUpdate.item)
  (g : globals) :
  for_each update_data (setattr_ref r) g =
  (Return tt,
   mkGlobals (dict_mutate r (apply_update update_data) (users_db g))
             (next_user_id g)).
Proof.
  revert g. induction update_data as [|it rest IH]; intros [db n]; simpl.
  - unfold ret, apply_update. simpl. now rewrite dict_mutate_id.
  - unfold bind at 1. unfold setattr_ref at 1. unfold bind, read_users_db,
      write_users_db. simpl. rewrite IH. simpl.
    now rewrite dict_mutate_mutate.
Qed.

(** The email of some stored record equals [e]. *)
Definition email_stored (e : option string) (db : dict User.t) : bool :=
  existsb (fun u => str_eq (User.email u) e) (dict_values db).

(** The email of some stored record other than [user_id]'s equals [e]. *)
Definition email_of_another (user_id : Z) (e : option string)
  (db : dict User.t) : bool :=
  existsb (fun kv => negb (fst kv =? user_id) && str_eq (User.email (snd kv)) e)
          (dict_items db).

Definition new_user (user : UserCreate.t) (now : datetime) (id : Z) : User.t :=
  User.mk id (Some (UserCreate.name user)) (Some (UserCreate.email user))
          (Some (UserCreate.age user)) now (Some true).

Lemma create_user_eq (user : UserCreate.t) (now : datetime) (g : globals) :
  create_user user now g =
  if email_stored (Some (UserCreate.email user)) (users_db g)
  then (Raise email_already_registered, g)
  else (Return (new_user user now (next_user_id g)),
        mkGlobals (dict_set (next_user_id g)
                            (new_user user now (next_user_id g)) (users_db g))
                  (next_user_id g + 1)).
Proof.
  unfold create_user, email_stored. destruct g as [db n]. unfold bind at 1.
  simpl. unfold bind at 1.
  rewrite (for_each_guard
             (fun u => str_eq (User.email u) (Some (UserCreate.email user)))
             email_already_registered).
  - destruct (existsb _ _); reflexivity.
  - intros x g'. now destruct (str_eq _ _).
Qed.

Lemma get_users_eq (skip limit : Z) (g : globals) :
  get_users skip limit g =
  (Return (slice (dict_values (users_db g)) skip (skip + limit)), g).
Proof. reflexivity. Qed.

Lemma get_user_eq (user_id : Z) (g : globals) :
  get_user user_id g =
  match dict_get user_id (users_db g) with
  | Some u => (Return u, g)
  | None => (Raise user_not_found, g)
  end.
Proof.
  unfold get_user, getitem, bind, read_users_db, dict_contains. simpl.
  destruct (dict_get user_id (users_db g)) eqn:E; simpl; rewrite ?E;
    reflexivity.
Qed.

Definition email_conflict (user_id : Z) (user_update : UserUpdate.t)
  (db : dict User.t) : bool :=
  match UserUpdate.lookup_email (UserUpdate.dict_exclude_unset user_update) with
  | Some new_email => email_of_another user_id new_email db
  | None => false
  end.

Lemma update_user_eq (user_id : Z) (user_update : UserUpdate.t) (g : globals) :
  update_user user_id user_update g =
  match dict_get user_id (users_db g) with
  | None => (Raise user_not_found, g)
  | Some u =>
      if email_conflict user_id user_update (users_db g)
      then (Raise email_already_registered, g)
      else
        let u' := apply_update (UserUpdate.dict_exclude_unset user_update) u in
        (Return u',
         mkGlobals
           (dict_mutate user_id
              (apply_update (UserUpdate.dict_exclude_unset user_update))
              (users_db g))
           (next_user_id g))
  end.
Proof.
  unfold update_user, email_conflict. destruct g as [db n].
  unfold bind at 1. simpl. unfold dict_contains.
  destruct (dict_get user_id db) as [u|] eqn:Hget; simpl; [|reflexivity].
  unfold bind at 1. unfold getitem_ref, getitem, bind at 1.
  unfold bind at 1. simpl. rewrite Hget. simpl.
  unfold bind at 1.
  destruct (UserUpdate.lookup_email _) as [new_email|] eqn:Hmail.
  - unfold bind at 1. simpl.
    rewrite (for_each_guard
               (fun kv => negb (fst kv =? user_id)
                          && str_eq (User.email (snd kv)) new_email)
               email_already_registered).
    + unfold email_of_another, dict_items.
      destruct (existsb _ db); [reflexivity|].
      unfold bind. rewrite for_each_setattr. simpl.
      unfold read_users_db. simpl.
      rewrite dict_get_mutate_same, Hget. reflexivity.
    + intros [uid existing_user] g'. simpl. now destruct (_ && _).
  - simpl. unfold bind. rewrite for_each_setattr. simpl.
    unfold read_users_db. simpl.
    rewrite dict_get_mutate_same, Hget. reflexivity.
Qed.

Definition deleted_response : JSONResponse :=
  mkJSONResponse HTTP_204_NO_CONTENT [("message", "User deleted successfully")].

Lemma delete_user_eq (user_id : Z) (g : globals) :
  delete_user user_id g =
  if dict_contains user_id (users_db g)
  then (Return deleted_response,
        mkGlobals (dict_del user_id (users_db g)) (next_user_id g))
  else (Raise user_not_found, g).
Proof.
  unfold delete_user, bind, read_users_db. simpl.
  now destruct (dict_contains user_id (users_db g)).
Qed.

(** The fields of the updated object, slot by slot. *)
Definition pick {A : Type} (s : UserUpdate.slot A) (old : option A)
  : option A :=
  match s with UserUpdate.Unset => old | UserUpdate.Supplied v => v end.

Lemma apply_update_fields (user_update : UserUpdate.t) (u : User.t) :
  apply_update (UserUpdate.dict_exclude_unset user_update) u =
  User.mk (User.id u)
          (pick (UserUpdate.name user_update) (User.name u))
          (pick (UserUpdate.email user_update) (User.email u))
          (pick (UserUpdate.age user_update) (User.age u))
          (User.created_at u)
          (pick (UserUpdate.is_active user_update) (User.is_active u)).
Proof.
  destruct user_update as [[|n] [|e] [|a] [|act]], u; reflexivity.
Qed.

Lemma lookup_email_slot (user_update : UserUpdate.t) :
  UserUpdate.lookup_email (UserUpdate.dict_exclude_unset user_update) =
  match UserUpdate.email user_update with
  | UserUpdate.Unset => None
  | UserUpdate.Supplied v => Some v
  end.
Proof. destruct user_update as [[|n] [|e] [|a] [|act]]; reflexivity. Qed.

(** ** The effect of one request on the state *)

Inductive transition (g : globals) : globals -> Prop :=
| tr_none : transition g g
| tr_create user now :
    email_stored (Some (UserCreate.email user)) (users_db g) = false ->
    transition g
      (mkGlobals (dict_set (next_user_id g)
                           (new_user user now (next_user_id g)) (users_db g))
                 (next_user_id g + 1))
| tr_update user_id user_update u :
    dict_get user_id (users_db g) = Some u ->
    email_conflict user_id user_update (users_db g) = false ->
    transition g
      (mkGlobals
         (dict_mutate user_id
            (apply_update (UserUpdate.dict_exclude_unset user_update))
            (users_db g))
         (next_user_id g))
| tr_delete user_id :
    dict_contains user_id (users_db g) = true ->
    transition g (mkGlobals (dict_del user_id (users_db g)) (next_user_id g)).

Lemma serve_snd {A : Type} (m : handler A) (render : A -> response)
  (g : globals) : snd (serve m render g) = snd (m g).
Proof. unfold serve. now destruct (m g) as [[a|e] g']. Qed.

Lemma app_transition (r : request) (g : globals) : transition g (snd (app r g)).
Proof.
  destruct r as [|now|user now|skip limit|user_id|user_id user_update|user_id];
    simpl.
  - constructor.
  - constructor.
  - destruct (UserCreate.validate user); [|constructor].
    rewrite serve_snd, create_user_eq.
    destruct (email_stored _ _) eqn:E; simpl; [constructor|].
    now apply tr_create.
  - constructor.
  - rewrite serve_snd, get_user_eq.
    destruct (dict_get _ _); constructor.
  - destruct (UserUpdate.validate user_update); [|constructor].
    rewrite serve_snd, update_user_eq.
    destruct (dict_get user_id (users_db g)) as [u|] eqn:Hget; [|constructor].
    destruct (email_conflict _ _ _) eqn:E; simpl; [constructor|].
    now apply tr_update with (u := u).
  - rewrite serve_snd, delete_user_eq.
    destruct (dict_contains _ _) eqn:E; simpl; [|constructor].
    now apply tr_delete.
Qed.

(** An invariant of [transition] holds in every state reached from a state
    where it holds. *)
Lemma reachable_from_ind_inv (P : globals -> Prop) :
  (forall g g', P g -> transition g g' -> P g') ->
  forall g g', P g -> reachable_from g g' -> P g'.
Proof.
  intros Hstep g g' Hg Hreach. induction Hreach as [|g' r Hreach IH].
  - exact Hg.
  - apply Hstep with (g := g'); [exact IH|apply app_transition].
Qed.

Lemma reachable_from_trans (g1 g2 g3 : globals) :
  reachable_from g1 g2 -> reachable_from g2 g3 -> reachable_from g1 g3.
Proof.
  intros H12 H23. induction H23 as [|g3 r H23 IH]; [exact H12|].
  now constructor.
Qed.

(** ** The registry invariant *)

Record registry_ok (g : globals) : Prop := mkOk {
  ok_keys : NoDup (dict_keys (users_db g));
  ok_ids : forall k u, In (k, u) (users_db g) -> User.id u = k;
  ok_bound : forall k, In k (dict_keys (users_db g)) ->
                       1 <= k < next_user_id g;
  ok_emails : NoDup (map User.email (dict_values (users_db g)));
  ok_counter : 1 <= next_user_id g
}.

Lemma email_stored_false (e : option string) (db : dict User.t) :
  email_stored e db = false ->
  ~ In e (map User.email (dict_values db)).
Proof.
  unfold email_stored. intros Hfalse Hin.
  apply in_map_iff in Hin. destruct Hin as [u [Heq Hin]].
  assert (existsb (fun u => str_eq (User.email u) e) (dict_values db) = true)
    as Htrue.
  { apply existsb_exists. exists u. split; [exact Hin|].
    now apply str_eq_spec. }
  congruence.
Qed.

Lemma email_of_another_false (user_id : Z) (e : option string)
  (db : dict User.t) (k : Z) (u : User.t) :
  email_of_another user_id e db = false ->
  In (k, u) db -> k <> user_id -> User.email u <> e.
Proof.
  unfold email_of_another, dict_items. intros Hfalse Hin Hne Heq.
  assert (existsb (fun kv => negb (fst kv =? user_id)
                             && str_eq (User.email (snd kv)) e) db = true)
    as Htrue.
  { apply existsb_exists. exists (k, u). split; [exact Hin|]. simpl.
    apply andb_true_iff. split.
    - apply negb_true_iff. now apply Z.eqb_neq.
    - now apply str_eq_spec. }
  congruence.
Qed.

Lemma NoDup_snoc {A : Type} (l : list A) (x : A) :
  NoDup l -> ~ In x l -> NoDup (l ++ [x]).
Proof.
  intros Hl Hx. apply NoDup_app; [exact Hl|repeat constructor; auto|].
  intros a Ha [<-|[]]. contradiction.
Qed.

Lemma NoDup_map_filter {A B : Type} (h : A -> B) (p : A -> bool) (l : list A) :
  NoDup (map h l) -> NoDup (map h (filter p l)).
Proof.
  induction l as [|x l IH]; simpl; [auto|].
  intros Hnd. apply NoDup_cons_iff in Hnd. destruct Hnd as [Hnotin Hnd].
  destruct (p x); simpl; [|auto].
  constructor; [|auto].
  intros Hin. apply Hnotin. apply in_map_iff in Hin.
  destruct Hin as [y [Heq Hin]]. apply filter_In in Hin.
  apply in_map_iff. exists y. tauto.
Qed.

(** Replacing the email of the one record stored under [k] keeps the emails
    distinct when no other record has the new email. *)
Lemma NoDup_emails_mutate (k : Z) (f : User.t -> User.t) (db : dict User.t) :
  NoDup (dict_keys db) ->
  NoDup (map User.email (dict_values db)) ->
  (forall k' u u', In (k', u') db -> k' <> k -> dict_get k db = Some u ->
                   User.email u' <> User.email (f u)) ->
  NoDup (map User.email (dict_values (dict_mutate k f db))).
Proof.
  induction db as [|[k0 u0] db IH]; simpl; [constructor|].
  intros Hkeys Hemails Hother.
  apply NoDup_cons_iff in Hkeys. destruct Hkeys as [Hk0 Hkeys].
  apply NoDup_cons_iff in Hemails. destruct Hemails as [He0 Hemails].
  destruct (k0 =? k) eqn:E; simpl.
  - apply Z.eqb_eq in E. subst k0. constructor.
    + intros Hin. apply in_map_iff in Hin. destruct Hin as [u' [Heq Hin]].
      apply in_map_iff in Hin. destruct Hin as [[k' u''] [Hsnd Hin]].
      simpl in Hsnd. subst u''.
      apply dict_in_mutate in Hin. destruct Hin as [v [Hin Hu']].
      assert (k' <> k) as Hne.
      { intros ->. apply Hk0. change k with (fst (k, v)). now apply in_map. }
      destruct (k' =? k) eqn:E'; [apply Z.eqb_eq in E'; contradiction|].
      subst u'. apply (Hother k' u0 v); auto.
    + assert (dict_mutate k f db = db) as ->; [|exact Hemails].
      unfold dict_mutate. rewrite <- (map_id db) at 2. apply map_ext_in.
      intros [k' v'] Hin. simpl. destruct (k' =? k) eqn:E'; [|reflexivity].
      apply Z.eqb_eq in E'. subst k'. exfalso. apply Hk0.
      change k with (fst (k, v')). now apply in_map.
  - apply Z.eqb_neq in E. constructor.
    + intros Hin. apply in_map_iff in Hin. destruct Hin as [u' [Heq Hin]].
      apply in_map_iff in Hin. destruct Hin as [[k' u''] [Hsnd Hin]].
      simpl in Hsnd. subst u''.
      apply dict_in_mutate in Hin. destruct Hin as [v [Hin Hu']].
      destruct (k' =? k) eqn:E'.
      * apply Z.eqb_eq in E'. subst k' u'.
        apply (Hother k0 v u0); auto.
        apply dict_in_get; auto.
      * subst u'. apply He0. apply in_map_iff. exists v. split; [auto|].
        apply in_map_iff. now exists (k', v).
    + apply IH; auto.
      intros k' u u' Hin Hne Hget. apply (Hother k' u u'); auto.
Qed.

Lemma in_keys {V : Type} (k : Z) (v : V) (d : dict V) :
  In (k, v) d -> In k (dict_keys d).
Proof. intros Hin. change k with (fst (k, v)). now apply in_map. Qed.

Lemma registry_ok_initial : registry_ok initial.
Proof. split; simpl; try constructor; try tauto; lia. Qed.

Lemma registry_ok_create (g : globals) (user : UserCreate.t) (now : datetime) :
  registry_ok g ->
  email_stored (Some (UserCreate.email user)) (users_db g) = false ->
  registry_ok
    (mkGlobals (dict_set (next_user_id g)
                         (new_user user now (next_user_id g)) (users_db g))
               (next_user_id g + 1)).
Proof.
  intros [Hkeys Hids Hbound Hemails Hcounter] Hfresh.
  assert (~ In (next_user_id g) (dict_keys (users_db g))) as Hnew.
  { intros Hin. apply Hbound in Hin. lia. }
  split; simpl; rewrite ?dict_set_fresh by exact Hnew.
  - unfold dict_keys. rewrite map_app. simpl. now apply NoDup_snoc.
  - intros k u Hin. apply in_app_iff in Hin. destruct Hin as [Hin|[Heq|[]]].
    + now apply Hids.
    + now injection Heq as <- <-.
  - intros k Hin. unfold dict_keys in Hin. rewrite map_app in Hin.
    apply in_app_iff in Hin. destruct Hin as [Hin|[<-|[]]]; simpl.
    + apply Hbound in Hin. lia.
    + lia.
  - unfold dict_values. rewrite !map_app. simpl. apply NoDup_snoc.
    + exact Hemails.
    + now apply email_stored_false.
  - lia.
Qed.

Lemma registry_ok_update (g : globals) (user_id : Z)
  (user_update : UserUpdate.t) (u : User.t) :
  registry_ok g ->
  dict_get user_id (users_db g) = Some u ->
  email_conflict user_id user_update (users_db g) = false ->
  registry_ok
    (mkGlobals
       (dict_mutate user_id
          (apply_update (UserUpdate.dict_exclude_unset user_update))
          (users_db g))
       (next_user_id g)).
Proof.
  intros [Hkeys Hids Hbound Hemails Hcounter] Hget Hfree.
  split; simpl; rewrite ?dict_keys_mutate; auto.
  - intros k u' Hin. apply dict_in_mutate in Hin.
    destruct Hin as [v [Hin ->]].
    destruct (k =? user_id); [rewrite apply_update_fields; simpl|];
      now apply Hids.
  - apply NoDup_emails_mutate; auto.
    intros k' u0 u' Hin Hne Hget0. rewrite apply_update_fields. simpl.
    unfold email_conflict in Hfree. rewrite lookup_email_slot in Hfree.
    destruct (UserUpdate.email user_update) as [|new_email]; simpl.
    + intros Heq. apply Hne.
      assert (dict_get k' (users_db g) = Some u') as Hget'
          by now apply dict_in_get.
      apply dict_get_in in Hget0.
      clear - Hemails Hin Hget0 Heq.
      induction (users_db g) as [|[k1 u1] db IH]; simpl in *; [tauto|].
      apply NoDup_cons_iff in Hemails. destruct Hemails as [Hnotin Hnd].
      destruct Hin as [Hin|Hin], Hget0 as [Hg|Hg].
      * congruence.
      * injection Hin as -> ->. exfalso. apply Hnotin.
        apply in_map_iff. exists u0. split; [auto|].
        apply in_map_iff. now exists (user_id, u0).
      * injection Hg as -> ->. exfalso. apply Hnotin.
        apply in_map_iff. exists u'. split; [auto|].
        apply in_map_iff. now exists (k', u').
      * auto.
    + now apply (email_of_another_false user_id new_email (users_db g) k').
Qed.

Lemma registry_ok_delete (g : globals) (user_id : Z) :
  registry_ok g ->
  registry_ok (mkGlobals (dict_del user_id (users_db g)) (next_user_id g)).
Proof.
  intros [Hkeys Hids Hbound Hemails Hcounter]. split; simpl; auto.
  - rewrite dict_keys_del. now apply NoDup_filter.
  - intros k u Hin. apply dict_in_del in Hin. now apply Hids.
  - intros k Hin. rewrite dict_keys_del in Hin. apply filter_In in Hin.
    now apply Hbound.
  - unfold dict_values, dict_del in *. rewrite map_map in *.
    now apply NoDup_map_filter.
Qed.

Lemma registry_ok_step (g g' : globals) :
  registry_ok g -> transition g g' -> registry_ok g'.
Proof.
  intros Hok Htr. destruct Htr as [|user now Hfresh|user_id upd u Hget Hfree
                                   |user_id Hin].
  - exact Hok.
  - now apply registry_ok_create.
  - now apply registry_ok_update with (u := u).
  - now apply registry_ok_delete.
Qed.

Lemma reachable_ok (g : globals) : reachable g -> registry_ok g.
Proof.
  apply (reachable_from_ind_inv registry_ok registry_ok_step).
  exact registry_ok_initial.
Qed.

Lemma reachable_from_ok (g g' : globals) :
  registry_ok g -> reachable_from g g' -> registry_ok g'.
Proof. apply (reachable_from_ind_inv registry_ok registry_ok_step). Qed.

(** The counter never goes down. *)
Lemma transition_counter (g g' : globals) :
  transition g g' -> next_user_id g <= next_user_id g'.
Proof. intros [| | |]; simpl; lia. Qed.

Lemma reachable_from_counter (g g' : globals) :
  reachable_from g g' -> next_user_id g <= next_user_id g'.
Proof.
  intros Hreach. induction Hreach as [|g' r Hreach IH]; [lia|].
  pose proof (transition_counter g' _ (app_transition r g')). lia.
Qed.

(** ** Slices *)

Lemma slice_nonneg {A : Type} (l : list A) (skip limit : Z) :
  0 <= skip -> 0 <= limit ->
  slice l skip (skip + limit) =
  firstn (Z.to_nat limit) (skipn (Z.to_nat skip) l).
Proof.
  intros Hskip Hlimit. unfold slice, slice_index.
  destruct (skip <? 0) eqn:E1; [apply Z.ltb_lt in E1; lia|].
  destruct (skip + limit <? 0) eqn:E2; [apply Z.ltb_lt in E2; lia|].
  remember (Z.of_nat (List.length l)) as n eqn:Hn.
  destruct (Z.le_gt_cases n skip) as [Hge|Hlt].
  - rewrite (Z.min_r skip n), (Z.min_r (skip + limit) n) by lia.
    rewrite Z.sub_diag. simpl.
    rewrite skipn_all2 by lia.
    now rewrite firstn_nil.
  - rewrite (Z.min_l skip n) by lia.
    destruct (Z.le_gt_cases (skip + limit) n) as [Hfit|Hover].
    + rewrite (Z.min_l (skip + limit) n) by lia.
      now replace (skip + limit - skip) with limit by lia.
    + rewrite (Z.min_r (skip + limit) n) by lia.
      rewrite !firstn_all2; [reflexivity| |]; rewrite length_skipn; lia.
Qed.

Lemma slice_last {A : Type} (older : list A) (x : A) (limit : Z) :
  Z.of_nat (List.length (older ++ [x])) < limit ->
  slice (older ++ [x]) (-1) (-1 + limit) = [x].
Proof.
  intros Hlimit. unfold slice, slice_index.
  rewrite length_app in *. simpl List.length in *.
  change (-1 <? 0) with true. cbv iota.
  destruct (-1 + limit <? 0) eqn:E; [apply Z.ltb_lt in E; lia|].
  rewrite Z.max_r, Z.min_r by lia.
  replace (Z.to_nat (-1 + Z.of_nat (List.length older + 1)))
    with (List.length older) by lia.
  replace (Z.to_nat (_ - _)) with 1%nat by lia.
  rewrite skipn_app, skipn_all, Nat.sub_diag. reflexivity.
Qed.

(** ** Example registries *)

Definition john_request : UserCreate.t :=
  UserCreate.mk "John Doe" "john@example.com" 30.

Definition jane_request : UserCreate.t :=
  UserCreate.mk "Jane Smith" "jane@example.com" 25.

Definition one_user : globals :=
  snd (app (POST_users john_request 1000) initial).

Definition two_users : globals :=
  snd (app (POST_users jane_request 1001) one_user).

Definition john : User.t :=
  User.mk 1 (Some "John Doe") (Some "john@example.com") (Some 30) 1000
          (Some true).

Definition jane : User.t :=
  User.mk 2 (Some "Jane Smith") (Some "jane@example.com") (Some 25) 1001
          (Some true).

Example two_users_db : users_db two_users = [(1, john); (2, jane)].
Proof. reflexivity. Qed.

Lemma reachable_two_users : reachable two_users.
Proof. unfold reachable, two_users, one_user. repeat constructor. Qed.

(** ** Creation *)

Definition conflict_response : response :=
  mkResponse HTTP_400_BAD_REQUEST (Object [("detail", "Email already registered")]).

Definition not_found_response : response :=
  mkResponse HTTP_404_NOT_FOUND (Object [("detail", "User not found")]).

Lemma email_stored_true (e : option string) (db : dict User.t) (k : Z)
  (u : User.t) :
  In (k, u) db -> User.email u = e -> email_stored e db = true.
Proof.
  intros Hin Heq. unfold email_stored. apply existsb_exists. exists u. split.
  - unfold dict_values. apply in_map_iff. now exists (k, u).
  - now apply str_eq_spec.
Qed.

(** C1: a create request whose email equals the email of a stored record
    raises the conflict error ("Email already registered", 400) and returns
    the state as it was: no record inserted, counter not incremented.  The
    same holds of the whole route for a body that passes validation. *)
Theorem create_user_duplicate_email (g : globals) (user : UserCreate.t)
  (now : datetime) (k : Z) (u : User.t) :
  In (k, u) (users_db g) ->
  User.email u = Some (UserCreate.email user) ->
  create_user user now g = (Raise email_already_registered, g) /\
  (UserCreate.validate user = [] ->
   app (POST_users user now) g = (conflict_response, g)).
Proof.
  intros Hin Heq.
  assert (create_user user now g = (Raise email_already_registered, g)) as Hc.
  { rewrite create_user_eq.
    now rewrite (email_stored_true _ _ k u Hin Heq). }
  split; [exact Hc|].
  intros Hvalid. simpl. rewrite Hvalid. unfold serve. now rewrite Hc.
Qed.

Lemma create_user_duplicate_email_witness :
  create_user (UserCreate.mk "Jane Doe" "john@example.com" 41) 1002 two_users
  = (Raise email_already_registered, two_users) /\
  (UserCreate.validate (UserCreate.mk "Jane Doe" "john@example.com" 41) = [] ->
   app (POST_users (UserCreate.mk "Jane Doe" "john@example.com" 41) 1002)
       two_users
   = (conflict_response, two_users)).
Proof.
  apply (create_user_duplicate_email two_users
           (UserCreate.mk "Jane Doe" "john@example.com" 41) 1002 1 john).
  - simpl. left. reflexivity.
  - reflexivity.
Defined.

Lemma validate_create_ok (user : UserCreate.t) :
  1 <= len (UserCreate.name user) <= 100 ->
  0 <= UserCreate.age user <= 150 ->
  UserCreate.validate user = [].
Proof.
  intros [Hn1 Hn2] [Ha1 Ha2]. unfold UserCreate.validate.
  apply Z.leb_le in Hn1, Hn2, Ha1, Ha2.
  now rewrite Hn1, Hn2, Ha1, Ha2.
Qed.

(** A name outside ASCII is measured in characters: fifty times the three
    bytes E6 97 A5 (one CJK character) is a name of length 50, within the
    bounds, though it is 150 bytes long. *)
Fixpoint repeat_string (n : nat) (s : string) : string :=
  match n with
  | O => EmptyString
  | S n' => s ++ repeat_string n' s
  end.

Definition three_byte_character : string :=
  String (Ascii.ascii_of_nat 230)
    (String (Ascii.ascii_of_nat 151)
       (String (Ascii.ascii_of_nat 165) EmptyString)).

Example len_counts_code_points :
  String.length (repeat_string 50 three_byte_character) = 150%nat /\
  len (repeat_string 50 three_byte_character) = 50 /\
  UserCreate.validate
    (UserCreate.mk (repeat_string 50 three_byte_character) "n@example.com" 30)
  = [] /\
  UserCreate.validate
    (UserCreate.mk (repeat_string 101 three_byte_character) "n@example.com" 30)
  = ["name"].
Proof. repeat split; vm_compute; reflexivity. Qed.

(** C2: for a name of length 1 to 100, an age in [0,150] and an email that no
    stored record has, creation succeeds (201) with a record, and reading
    the returned id straight after gives that same record back. *)
Theorem create_then_get (g : globals) (user : UserCreate.t) (now : datetime) :
  1 <= len (UserCreate.name user) <= 100 ->
  0 <= UserCreate.age user <= 150 ->
  (forall k u, In (k, u) (users_db g) ->
               User.email u <> Some (UserCreate.email user)) ->
  exists u g',
    create_user user now g = (Return u, g') /\
    get_user (User.id u) g' = (Return u, g') /\
    app (POST_users user now) g
    = (mkResponse HTTP_201_CREATED (UserBody u), g') /\
    app (GET_user (User.id u)) g' = (mkResponse HTTP_200_OK (UserBody u), g').
Proof.
  intros Hname Hage Hfresh.
  assert (email_stored (Some (UserCreate.email user)) (users_db g) = false)
    as Hstored.
  { destruct (email_stored _ _) eqn:E; [|reflexivity].
    unfold email_stored in E. apply existsb_exists in E.
    destruct E as [u [Hin Heq]]. apply str_eq_spec in Heq.
    unfold dict_values in Hin. apply in_map_iff in Hin.
    destruct Hin as [[k u'] [Hsnd Hin]]. simpl in Hsnd. subst u'.
    exfalso. now apply (Hfresh k u). }
  assert (get_user (next_user_id g)
            (mkGlobals (dict_set (next_user_id g)
                                 (new_user user now (next_user_id g))
                                 (users_db g))
                       (next_user_id g + 1))
          = (Return (new_user user now (next_user_id g)),
             mkGlobals (dict_set (next_user_id g)
                                 (new_user user now (next_user_id g))
                                 (users_db g))
                       (next_user_id g + 1))) as Hget.
  { rewrite get_user_eq. simpl. now rewrite dict_get_set_same. }
  exists (new_user user now (next_user_id g)). eexists.
  split; [rewrite create_user_eq, Hstored; reflexivity|].
  split; [exact Hget|]. split.
  - simpl. rewrite (validate_create_ok user Hname Hage).
    unfold serve. rewrite create_user_eq, Hstored. reflexivity.
  - change (User.id (new_user user now (next_user_id g)))
      with (next_user_id g).
    change (app (GET_user (next_user_id g)))
      with (serve (get_user (next_user_id g))
                  (fun u => mkResponse HTTP_200_OK (UserBody u))).
    unfold serve. now rewrite Hget.
Qed.

Lemma create_then_get_witness :
  exists u g',
    create_user jane_request 1001 one_user = (Return u, g') /\
    get_user (User.id u) g' = (Return u, g') /\
    app (POST_users jane_request 1001) one_user
    = (mkResponse HTTP_201_CREATED (UserBody u), g') /\
    app (GET_user (User.id u)) g' = (mkResponse HTTP_200_OK (UserBody u), g').
Proof.
  apply (create_then_get one_user jane_request 1001).
  - vm_compute. split; discriminate.
  - vm_compute. split; discriminate.
  - simpl. intros k u [Heq|[]]. injection Heq as <- <-. discriminate.
Defined.

(** ** Listing *)

(** On a state that satisfies the invariant, creation puts the new record
    after all the others, so the order of [users_db] is the order of
    creation; deletion and update keep the order of the records that stay. *)
Lemma create_user_appends (g g' : globals) (user : UserCreate.t)
  (now : datetime) (u : User.t) :
  registry_ok g ->
  create_user user now g = (Return u, g') ->
  dict_values (users_db g') = dict_values (users_db g) ++ [u].
Proof.
  intros Hok. rewrite create_user_eq.
  destruct (email_stored _ _); [discriminate|]. intros [= <- <-]. simpl.
  rewrite dict_set_fresh.
  - unfold dict_values. now rewrite map_app.
  - intros Hin. apply (ok_bound g Hok) in Hin. lia.
Qed.

Lemma delete_user_keeps_order (g : globals) (user_id : Z) :
  dict_keys (users_db (snd (delete_user user_id g)))
  = filter (fun k => negb (k =? user_id)) (dict_keys (users_db g)).
Proof.
  rewrite delete_user_eq. destruct (dict_contains _ _) eqn:E; simpl.
  - apply dict_keys_del.
  - symmetry. apply forallb_filter_id. apply forallb_forall. intros k Hin.
    apply negb_true_iff, Z.eqb_neq. intros ->.
    apply dict_contains_true in Hin. congruence.
Qed.

Lemma update_user_keeps_order (g : globals) (user_id : Z)
  (user_update : UserUpdate.t) :
  dict_keys (users_db (snd (update_user user_id user_update g)))
  = dict_keys (users_db g).
Proof.
  rewrite update_user_eq. destruct (dict_get _ _); [|reflexivity].
  destruct (email_conflict _ _ _); [reflexivity|]. simpl.
  apply dict_keys_mutate.
Qed.

(** C4: for non-negative [skip] and [limit] the listing never fails (200),
    changes nothing, and returns the records from offset [skip] on, at most
    [limit] of them, in the order of the registry; it is empty when [skip]
    is at least the number of records. *)
Theorem get_users_slice (g : globals) (skip limit : Z) :
  0 <= skip -> 0 <= limit ->
  exists l,
    get_users skip limit g = (Return l, g) /\
    app (GET_users (Some skip) (Some limit)) g
    = (mkResponse HTTP_200_OK (UsersBody l), g) /\
    l = firstn (Z.to_nat limit)
               (skipn (Z.to_nat skip) (dict_values (users_db g))) /\
    Z.of_nat (List.length l) <= limit /\
    (Z.of_nat (List.length (dict_values (users_db g))) <= skip -> l = []).
Proof.
  intros Hskip Hlimit.
  exists (firstn (Z.to_nat limit)
                 (skipn (Z.to_nat skip) (dict_values (users_db g)))).
  assert (get_users skip limit g =
          (Return (firstn (Z.to_nat limit)
                     (skipn (Z.to_nat skip) (dict_values (users_db g)))), g))
    as Hget.
  { rewrite get_users_eq. now rewrite slice_nonneg. }
  split; [exact Hget|]. split.
  - simpl. unfold serve. now rewrite Hget.
  - split; [reflexivity|]. split.
    + pose proof (firstn_le_length (Z.to_nat limit)
                    (skipn (Z.to_nat skip) (dict_values (users_db g)))).
      lia.
    + intros Hall. rewrite skipn_all2 by lia. apply firstn_nil.
Qed.

Lemma get_users_slice_witness :
  exists l,
    get_users 1 1 two_users = (Return l, two_users) /\
    app (GET_users (Some 1) (Some 1)) two_users
    = (mkResponse HTTP_200_OK (UsersBody l), two_users) /\
    l = firstn (Z.to_nat 1)
               (skipn (Z.to_nat 1) (dict_values (users_db two_users))) /\
    Z.of_nat (List.length l) <= 1 /\
    (Z.of_nat (List.length (dict_values (users_db two_users))) <= 1 -> l = []).
Proof. apply (get_users_slice two_users 1 1); lia. Defined.

(** C10: with [skip = -1] and a registry of fewer than [limit] records (and
    at least one), the listing is the last record of the registry: the
    negative offset counts from the end. *)
Theorem get_users_negative_skip (g : globals) (limit : Z)
  (older : dict User.t) (k : Z) (u : User.t) :
  users_db g = older ++ [(k, u)] ->
  Z.of_nat (List.length (users_db g)) < limit ->
  get_users (-1) limit g = (Return [u], g) /\
  app (GET_users (Some (-1)) (Some limit)) g
  = (mkResponse HTTP_200_OK (UsersBody [u]), g).
Proof.
  intros Hdb Hlimit.
  assert (get_users (-1) limit g = (Return [u], g)) as Hget.
  { rewrite get_users_eq. rewrite Hdb in *. unfold dict_values.
    rewrite map_app. simpl map at 2. rewrite slice_last; [reflexivity|].
    rewrite length_app, length_map in *. exact Hlimit. }
  split; [exact Hget|]. simpl. unfold serve. now rewrite Hget.
Qed.

Lemma get_users_negative_skip_witness :
  get_users (-1) 100 two_users = (Return [jane], two_users) /\
  app (GET_users (Some (-1)) (Some 100)) two_users
  = (mkResponse HTTP_200_OK (UsersBody [jane]), two_users).
Proof.
  apply (get_users_negative_skip two_users 100 [(1, john)] 2 jane).
  - reflexivity.
  - simpl. lia.
Defined.

(** ** Update *)

Lemma email_of_another_true (user_id : Z) (e : option string)
  (db : dict User.t) (k : Z) (u : User.t) :
  In (k, u) db -> k <> user_id -> User.email u = e ->
  email_of_another user_id e db = true.
Proof.
  intros Hin Hne Heq. unfold email_of_another, dict_items.
  apply existsb_exists. exists (k, u). split; [exact Hin|]. simpl.
  apply andb_true_iff. split.
  - apply negb_true_iff. now apply Z.eqb_neq.
  - now apply str_eq_spec.
Qed.

(** C3: an update of a stored record that supplies the email of a different
    stored record raises the conflict error and returns the state as it
    was, so the target keeps every field and no other record changes. *)
Theorem update_user_duplicate_email (g : globals) (user_id : Z)
  (user_update : UserUpdate.t) (target : User.t) (new_email : option string)
  (k : Z) (other : User.t) :
  dict_get user_id (users_db g) = Some target ->
  UserUpdate.email user_update = UserUpdate.Supplied new_email ->
  In (k, other) (users_db g) ->
  k <> user_id ->
  User.email other = new_email ->
  update_user user_id user_update g = (Raise email_already_registered, g) /\
  dict_get user_id (users_db (snd (update_user user_id user_update g)))
  = Some target /\
  (UserUpdate.validate user_update = [] ->
   app (PUT_user user_id user_update) g = (conflict_response, g)).
Proof.
  intros Hget Hsupplied Hin Hne Heq.
  assert (update_user user_id user_update g = (Raise email_already_registered, g))
    as Hup.
  { rewrite update_user_eq, Hget. unfold email_conflict.
    rewrite lookup_email_slot, Hsupplied.
    now rewrite (email_of_another_true user_id new_email _ k other). }
  split; [exact Hup|]. split.
  - now rewrite Hup.
  - intros Hvalid. simpl. rewrite Hvalid. unfold serve. now rewrite Hup.
Qed.

Definition take_johns_email : UserUpdate.t :=
  UserUpdate.mk (UserUpdate.Supplied (Some "J. Smith"))
                (UserUpdate.Supplied (Some "john@example.com"))
                (UserUpdate.Supplied (Some 26))
                (UserUpdate.Supplied (Some false)).

Lemma update_user_duplicate_email_witness :
  update_user 2 take_johns_email two_users
  = (Raise email_already_registered, two_users) /\
  dict_get 2 (users_db (snd (update_user 2 take_johns_email two_users)))
  = Some jane /\
  (UserUpdate.validate take_johns_email = [] ->
   app (PUT_user 2 take_johns_email) two_users
   = (conflict_response, two_users)).
Proof.
  apply (update_user_duplicate_email two_users 2 take_johns_email jane
           (Some "john@example.com") 1 john).
  - reflexivity.
  - reflexivity.
  - simpl. left. reflexivity.
  - lia.
  - reflexivity.
Defined.

(** C6: an update of a stored record leaves, in what is stored under the id
    afterwards, [id] and [created_at] as they were and every field the
    request leaves out as it was; and a request that leaves out [email]
    succeeds, so it never raises the conflict error. *)
Theorem update_user_frame (g : globals) (user_id : Z)
  (user_update : UserUpdate.t) (u : User.t) :
  dict_get user_id (users_db g) = Some u ->
  exists u',
    dict_get user_id (users_db (snd (update_user user_id user_update g)))
    = Some u' /\
    User.id u' = User.id u /\
    User.created_at u' = User.created_at u /\
    (UserUpdate.name user_update = UserUpdate.Unset ->
     User.name u' = User.name u) /\
    (UserUpdate.email user_update = UserUpdate.Unset ->
     User.email u' = User.email u) /\
    (UserUpdate.age user_update = UserUpdate.Unset ->
     User.age u' = User.age u) /\
    (UserUpdate.is_active user_update = UserUpdate.Unset ->
     User.is_active u' = User.is_active u) /\
    (UserUpdate.email user_update = UserUpdate.Unset ->
     fst (update_user user_id user_update g) = Return u').
Proof.
  intros Hget. rewrite update_user_eq, Hget.
  destruct (email_conflict user_id user_update (users_db g)) eqn:Hconf.
  - exists u. simpl. rewrite Hget. repeat split; auto.
    intros Hunset. unfold email_conflict in Hconf.
    rewrite lookup_email_slot, Hunset in Hconf. discriminate.
  - exists (apply_update (UserUpdate.dict_exclude_unset user_update) u).
    simpl. rewrite dict_get_mutate_same, Hget. simpl.
    rewrite apply_update_fields. simpl.
    repeat split; auto; intros ->; reflexivity.
Qed.

Definition birthday : UserUpdate.t :=
  UserUpdate.mk UserUpdate.Unset UserUpdate.Unset
                (UserUpdate.Supplied (Some 31)) UserUpdate.Unset.

Lemma update_user_frame_witness :
  exists u',
    dict_get 1 (users_db (snd (update_user 1 birthday two_users))) = Some u' /\
    User.id u' = User.id john /\
    User.created_at u' = User.created_at john /\
    (UserUpdate.name birthday = UserUpdate.Unset ->
     User.name u' = User.name john) /\
    (UserUpdate.email birthday = UserUpdate.Unset ->
     User.email u' = User.email john) /\
    (UserUpdate.age birthday = UserUpdate.Unset ->
     User.age u' = User.age john) /\
    (UserUpdate.is_active birthday = UserUpdate.Unset ->
     User.is_active u' = User.is_active john) /\
    (UserUpdate.email birthday = UserUpdate.Unset ->
     fst (update_user 1 birthday two_users) = Return u').
Proof. apply (update_user_frame two_users 1 birthday john). reflexivity. Defined.

(** ** Deletion *)

(** The id is not in the registry and lies below the counter. *)
Definition gone (user_id : Z) (g : globals) : Prop :=
  registry_ok g /\
  ~ In user_id (dict_keys (users_db g)) /\
  user_id < next_user_id g.

Lemma gone_step (user_id : Z) (g g' : globals) :
  gone user_id g -> transition g g' -> gone user_id g'.
Proof.
  intros (Hok & Hout & Hlt) Htr.
  split; [now apply registry_ok_step with (g := g)|].
  destruct Htr as [|user now Hfresh|uid upd u Hget Hfree|uid Hin]; simpl.
  - now split.
  - split; [|lia]. rewrite dict_set_fresh.
    + unfold dict_keys. rewrite map_app, in_app_iff. simpl.
      intros [Hin|[Heq|[]]]; [contradiction|lia].
    + intros Hin. apply (ok_bound g Hok) in Hin. lia.
  - rewrite dict_keys_mutate. now split.
  - split; [|exact Hlt]. rewrite dict_keys_del, filter_In. tauto.
Qed.

Lemma delete_user_gone (g g' : globals) (user_id : Z) (r : JSONResponse) :
  registry_ok g ->
  delete_user user_id g = (Return r, g') ->
  gone user_id g'.
Proof.
  intros Hok. rewrite delete_user_eq.
  destruct (dict_contains user_id (users_db g)) eqn:Hin; [|discriminate].
  intros [= <- <-]. apply dict_contains_true in Hin.
  split; [now apply registry_ok_delete|]. simpl. split.
  - apply dict_get_none, dict_get_del_same.
  - apply (ok_bound g Hok) in Hin. lia.
Qed.

(** C5: once [delete_user] has succeeded on an id in a reachable state, in
    every state reached afterwards reading that id is answered "User not
    found" (404), and a creation that succeeds there gives its record
    another id. *)
Theorem deleted_id_stays_gone (g g' g'' : globals) (user_id : Z)
  (r : JSONResponse) :
  reachable g ->
  delete_user user_id g = (Return r, g') ->
  reachable_from g' g'' ->
  get_user user_id g'' = (Raise user_not_found, g'') /\
  app (GET_user user_id) g'' = (not_found_response, g'') /\
  (forall user now u g3,
      create_user user now g'' = (Return u, g3) -> User.id u <> user_id).
Proof.
  intros Hreach Hdel Hlater.
  assert (gone user_id g'') as (Hok & Hout & Hlt).
  { apply (reachable_from_ind_inv (gone user_id) (gone_step user_id) g' g'');
      [|exact Hlater].
    apply (delete_user_gone g g' user_id r); [|exact Hdel].
    now apply reachable_ok. }
  assert (get_user user_id g'' = (Raise user_not_found, g'')) as Hget.
  { rewrite get_user_eq. apply dict_get_none in Hout. now rewrite Hout. }
  split; [exact Hget|]. split.
  - simpl. unfold serve. now rewrite Hget.
  - intros user now u g3. rewrite create_user_eq.
    destruct (email_stored _ _); [discriminate|].
    intros [= <- <-]. simpl. lia.
Qed.

Definition after_delete : globals := snd (app (DELETE_user 1) two_users).

Definition later : globals :=
  snd (app (POST_users john_request 1003) after_delete).

Lemma deleted_id_stays_gone_witness :
  get_user 1 later = (Raise user_not_found, later) /\
  app (GET_user 1) later = (not_found_response, later) /\
  (forall user now u g3,
      create_user user now later = (Return u, g3) -> User.id u <> 1).
Proof.
  apply (deleted_id_stays_gone two_users after_delete later 1 deleted_response).
  - exact reachable_two_users.
  - reflexivity.
  - unfold later. repeat constructor.
Defined.

(** C8: on an id that is in the registry, [delete_user] removes the record
    and leaves the others and the counter alone; what it returns is a 204
    response whose content is the message "User deleted successfully", so
    the payload is not empty. *)
Theorem delete_user_response (g : globals) (user_id : Z) :
  dict_contains user_id (users_db g) = true ->
  exists g',
    delete_user user_id g = (Return deleted_response, g') /\
    dict_get user_id (users_db g') = None /\
    users_db g' = dict_del user_id (users_db g) /\
    next_user_id g' = next_user_id g /\
    app (DELETE_user user_id) g
    = (mkResponse HTTP_204_NO_CONTENT
                  (Object [("message", "User deleted successfully")]), g') /\
    content deleted_response <> [].
Proof.
  intros Hin.
  exists (mkGlobals (dict_del user_id (users_db g)) (next_user_id g)).
  assert (delete_user user_id g =
          (Return deleted_response,
           mkGlobals (dict_del user_id (users_db g)) (next_user_id g))) as Hdel.
  { now rewrite delete_user_eq, Hin. }
  split; [exact Hdel|]. simpl. split; [apply dict_get_del_same|].
  repeat split.
  - unfold serve. now rewrite Hdel.
  - discriminate.
Qed.

Lemma delete_user_response_witness :
  exists g',
    delete_user 1 one_user = (Return deleted_response, g') /\
    dict_get 1 (users_db g') = None /\
    users_db g' = dict_del 1 (users_db one_user) /\
    next_user_id g' = next_user_id one_user /\
    app (DELETE_user 1) one_user
    = (mkResponse HTTP_204_NO_CONTENT
                  (Object [("message", "User deleted successfully")]), g') /\
    content deleted_response <> [].
Proof. apply (delete_user_response one_user 1). reflexivity. Defined.

(** ** Uniqueness of ids and emails *)

Lemma ids_are_keys (g : globals) :
  registry_ok g ->
  map User.id (dict_values (users_db g)) = dict_keys (users_db g).
Proof.
  intros Hok. unfold dict_values, dict_keys. rewrite map_map.
  apply map_ext_in. intros [k u] Hin. simpl. now apply (ok_ids g Hok).
Qed.

(** C7: in every reachable state the stored records have pairwise distinct
    ids and pairwise distinct emails; the counter starts at 1 and no request
    lowers it; every stored id is at least 1 and below the counter; a
    creation that succeeds assigns the counter's value and moves the counter
    one up, so of two creations that succeed one after the other, whatever
    happens in between, the later one gets the greater id. *)
Theorem registry_invariant (g : globals) :
  reachable g ->
  NoDup (map User.id (dict_values (users_db g))) /\
  NoDup (map User.email (dict_values (users_db g))) /\
  next_user_id initial = 1 /\
  (forall r, next_user_id g <= next_user_id (snd (app r g))) /\
  (forall u, In u (dict_values (users_db g)) ->
             1 <= User.id u < next_user_id g) /\
  (forall user now u g1,
      create_user user now g = (Return u, g1) ->
      User.id u = next_user_id g /\ next_user_id g1 = next_user_id g + 1) /\
  (forall user now u1 g1 g2 user' now' u2 g3,
      create_user user now g = (Return u1, g1) ->
      reachable_from g1 g2 ->
      create_user user' now' g2 = (Return u2, g3) ->
      User.id u1 < User.id u2).
Proof.
  intros Hreach. pose proof (reachable_ok g Hreach) as Hok.
  assert (forall g0 user now u g1,
             create_user user now g0 = (Return u, g1) ->
             User.id u = next_user_id g0 /\
             next_user_id g1 = next_user_id g0 + 1) as Hcreate.
  { intros g0 user now u g1. rewrite create_user_eq.
    destruct (email_stored _ _); [discriminate|].
    intros [= <- <-]. now split. }
  split; [rewrite (ids_are_keys g Hok); apply (ok_keys g Hok)|].
  split; [apply (ok_emails g Hok)|].
  split; [reflexivity|].
  split; [intros r; apply transition_counter, app_transition|].
  split.
  { intros u Hin. unfold dict_values in Hin. apply in_map_iff in Hin.
    destruct Hin as [[k u'] [Hsnd Hin]]. simpl in Hsnd. subst u'.
    rewrite (ok_ids g Hok k u Hin). apply (ok_bound g Hok).
    now apply in_keys with (v := u). }
  split; [apply Hcreate|].
  intros user now u1 g1 g2 user' now' u2 g3 Hc1 Hlater Hc2.
  apply Hcreate in Hc1, Hc2. destruct Hc1 as [-> Hn1], Hc2 as [-> _].
  apply reachable_from_counter in Hlater. lia.
Qed.

Lemma registry_invariant_witness :
  NoDup (map User.id (dict_values (users_db two_users))) /\
  NoDup (map User.email (dict_values (users_db two_users))) /\
  next_user_id initial = 1 /\
  (forall r, next_user_id two_users <= next_user_id (snd (app r two_users))) /\
  (forall u, In u (dict_values (users_db two_users)) ->
             1 <= User.id u < next_user_id two_users) /\
  (forall user now u g1,
      create_user user now two_users = (Return u, g1) ->
      User.id u = next_user_id two_users /\
      next_user_id g1 = next_user_id two_users + 1) /\
  (forall user now u1 g1 g2 user' now' u2 g3,
      create_user user now two_users = (Return u1, g1) ->
      reachable_from g1 g2 ->
      create_user user' now' g2 = (Return u2, g3) ->
      User.id u1 < User.id u2).
Proof. apply (registry_invariant two_users). exact reachable_two_users. Defined.

(** ** Null in an update *)

(** The request is accepted and every null it supplies for [name] or
    [email] is what the record stored under the id holds afterwards. *)
Definition null_stored (g : globals) (user_id : Z)
  (user_update : UserUpdate.t) : Prop :=
  exists u' g',
    update_user user_id user_update g = (Return u', g') /\
    dict_get user_id (users_db g') = Some u' /\
    (UserUpdate.name user_update = UserUpdate.Supplied None ->
     User.name u' = None) /\
    (UserUpdate.email user_update = UserUpdate.Supplied None ->
     User.email u' = None).

Definition forget_email : UserUpdate.t :=
  UserUpdate.mk UserUpdate.Unset (UserUpdate.Supplied None)
                UserUpdate.Unset UserUpdate.Unset.

Definition forget_name : UserUpdate.t :=
  UserUpdate.mk (UserUpdate.Supplied None) UserUpdate.Unset
                UserUpdate.Unset UserUpdate.Unset.

(** The registry of John and Jane after John's email was set to null. *)
Definition john_without_email : globals :=
  snd (app (PUT_user 1 forget_email) two_users).

Example john_without_email_db :
  users_db john_without_email =
  [(1, User.mk 1 (Some "John Doe") None (Some 30) 1000 (Some true));
   (2, jane)].
Proof. reflexivity. Qed.

(** Validation lets a null through: the constraints of [name] and [age]
    bear on a value that is there. *)
Lemma validate_null :
  UserUpdate.validate forget_email = [] /\
  UserUpdate.validate forget_name = [].
Proof. split; reflexivity. Qed.

(** C9, as stated, fails: in a reachable registry where John's email is
    already null, the request that supplies null for Jane's email is
    refused with the conflict error, because [None == None] holds in the
    uniqueness check; nothing is stored. *)
Lemma null_email_update_rejected :
  reachable john_without_email /\
  dict_get 2 (users_db john_without_email) = Some jane /\
  UserUpdate.email forget_email = UserUpdate.Supplied None /\
  update_user 2 forget_email john_without_email
  = (Raise email_already_registered, john_without_email) /\
  ~ null_stored john_without_email 2 forget_email.
Proof.
  split; [unfold reachable, john_without_email, two_users, one_user;
          repeat constructor|].
  split; [reflexivity|]. split; [reflexivity|].
  assert (update_user 2 forget_email john_without_email
          = (Raise email_already_registered, john_without_email)) as Hup
      by reflexivity.
  split; [exact Hup|].
  intros (u' & g' & Hok & _). rewrite Hup in Hok. discriminate.
Qed.

(** C9, amended: an update of a stored record that supplies null for [name]
    or [email], and whose supplied email (null counts as one) is not the
    email of another stored record, is accepted, and the record stored under
    the id afterwards holds that null: its [name] or its [email] is [None],
    no text at all. *)
Theorem update_user_stores_null (g : globals) (user_id : Z)
  (user_update : UserUpdate.t) (u : User.t) :
  dict_get user_id (users_db g) = Some u ->
  UserUpdate.name user_update = UserUpdate.Supplied None \/
  UserUpdate.email user_update = UserUpdate.Supplied None ->
  (forall new_email k other,
      UserUpdate.email user_update = UserUpdate.Supplied new_email ->
      In (k, other) (users_db g) -> k <> user_id ->
      User.email other <> new_email) ->
  exists u' g',
    update_user user_id user_update g = (Return u', g') /\
    dict_get user_id (users_db g') = Some u' /\
    (UserUpdate.name user_update = UserUpdate.Supplied None ->
     User.name u' = None) /\
    (UserUpdate.email user_update = UserUpdate.Supplied None ->
     User.email u' = None) /\
    (User.name u' = None \/ User.email u' = None).
Proof.
  intros Hget Hnull Hfree.
  assert (email_conflict user_id user_update (users_db g) = false) as Hconf.
  { unfold email_conflict. rewrite lookup_email_slot.
    destruct (UserUpdate.email user_update) as [|new_email] eqn:Hmail;
      [reflexivity|].
    destruct (email_of_another user_id new_email (users_db g)) eqn:E;
      [|reflexivity].
    unfold email_of_another, dict_items in E. apply existsb_exists in E.
    destruct E as [[k other] [Hin Htest]]. simpl in Htest.
    apply andb_true_iff in Htest. destruct Htest as [Hne Heq].
    apply negb_true_iff, Z.eqb_neq in Hne. apply str_eq_spec in Heq.
    exfalso. now apply (Hfree new_email k other). }
  exists (apply_update (UserUpdate.dict_exclude_unset user_update) u).
  eexists. rewrite update_user_eq, Hget, Hconf. simpl.
  split; [reflexivity|]. simpl.
  rewrite dict_get_mutate_same, Hget. simpl. split; [reflexivity|].
  rewrite apply_update_fields. simpl.
  split; [now intros ->|]. split; [now intros ->|].
  destruct Hnull as [-> | ->]; simpl; auto.
Qed.

Lemma update_user_stores_null_witness :
  exists u' g',
    update_user 1 forget_email two_users = (Return u', g') /\
    dict_get 1 (users_db g') = Some u' /\
    (UserUpdate.name forget_email = UserUpdate.Supplied None ->
     User.name u' = None) /\
    (UserUpdate.email forget_email = UserUpdate.Supplied None ->
     User.email u' = None) /\
    (User.name u' = None \/ User.email u' = None).
Proof.
  apply (update_user_stores_null two_users 1 forget_email john).
  - reflexivity.
  - right. reflexivity.
  - intros new_email k other Hmail. injection Hmail as <-.
    simpl. intros [Heq|[Heq|[]]] Hne; injection Heq as <- <-.
    + lia.
    + discriminate.
Defined.

(** * Further properties of the handlers *)

(** ** Outcome of a request, by status *)

Lemma globals_eta (g : globals) : mkGlobals (users_db g) (next_user_id g) = g.
Proof. now destruct g. Qed.

(** The four shapes of [app r g]: a creation (201), a deletion (204), an
    answer 200 that changed at most one stored object, a refusal. *)
Lemma app_cases (r : request) (g : globals) :
  (status (fst (app r g)) = HTTP_201_CREATED /\
   exists user now,
     email_stored (Some (UserCreate.email user)) (users_db g) = false /\
     snd (app r g)
     = mkGlobals (dict_set (next_user_id g)
                           (new_user user now (next_user_id g)) (users_db g))
                 (next_user_id g + 1)) \/
  (status (fst (app r g)) = HTTP_204_NO_CONTENT /\
   exists user_id,
     dict_contains user_id (users_db g) = true /\
     snd (app r g)
     = mkGlobals (dict_del user_id (users_db g)) (next_user_id g)) \/
  (status (fst (app r g)) = HTTP_200_OK /\
   exists user_id f,
     snd (app r g)
     = mkGlobals (dict_mutate user_id f (users_db g)) (next_user_id g)) \/
  (In (status (fst (app r g)))
      [HTTP_400_BAD_REQUEST; HTTP_404_NOT_FOUND;
       HTTP_422_UNPROCESSABLE_ENTITY] /\
   snd (app r g) = g).
Proof.
  assert (forall g0 : globals,
             g0 = mkGlobals (dict_mutate 0 (fun u => u) (users_db g0))
                            (next_user_id g0)) as Hsame.
  { intros g0. now rewrite dict_mutate_id, globals_eta. }
  destruct r as [|now|user now|skip limit|user_id|user_id user_update|user_id];
    simpl.
  - right; right; left. split; [reflexivity|]. exists 0, (fun u => u).
    apply Hsame.
  - right; right; left. split; [reflexivity|]. exists 0, (fun u => u).
    apply Hsame.
  - destruct (UserCreate.validate user) eqn:Hv.
    + unfold serve. rewrite create_user_eq.
      destruct (email_stored _ _) eqn:E; simpl.
      * right; right; right. split; [now left|reflexivity].
      * left. split; [reflexivity|]. now exists user, now.
    + right; right; right. simpl. split; [now right; right; left|reflexivity].
  - right; right; left. split; [reflexivity|]. exists 0, (fun u => u).
    apply Hsame.
  - unfold serve. rewrite get_user_eq.
    destruct (dict_get user_id (users_db g)); simpl.
    + right; right; left. split; [reflexivity|]. exists 0, (fun u => u).
      apply Hsame.
    + right; right; right. split; [now right; left|reflexivity].
  - destruct (UserUpdate.validate user_update) eqn:Hv.
    + unfold serve. rewrite update_user_eq.
      destruct (dict_get user_id (users_db g)); simpl.
      * destruct (email_conflict _ _ _); simpl.
        -- right; right; right. split; [now left|reflexivity].
        -- right; right; left. split; [reflexivity|]. eexists _, _.
           reflexivity.
      * right; right; right. split; [now right; left|reflexivity].
    + right; right; right. simpl. split; [now right; right; left|reflexivity].
  - unfold serve. rewrite delete_user_eq.
    destruct (dict_contains user_id (users_db g)) eqn:E; simpl.
    + right; left. split; [reflexivity|]. now exists user_id.
    + right; right; right. split; [now right; left|reflexivity].
Qed.

(** X2: the only exceptions the handlers raise are the two [HTTPException]s
    they build: [create_user] raises nothing but "Email already registered",
    [get_user] and [delete_user] nothing but "User not found",
    [update_user] nothing but these two, and [get_users] never raises.
    The lookups [users_db[user_id]] of [get_user] and [update_user] are
    guarded by the membership test, so no [KeyError] leaves a handler. *)
Theorem handlers_raise_only_http :
  (forall user now g e g',
      create_user user now g = (Raise e, g') ->
      e = email_already_registered) /\
  (forall skip limit g, exists l, get_users skip limit g = (Return l, g)) /\
  (forall user_id g e g',
      get_user user_id g = (Raise e, g') -> e = user_not_found) /\
  (forall user_id user_update g e g',
      update_user user_id user_update g = (Raise e, g') ->
      e = user_not_found \/ e = email_already_registered) /\
  (forall user_id g e g',
      delete_user user_id g = (Raise e, g') -> e = user_not_found).
Proof.
  split.
  { intros user now g e g'. rewrite create_user_eq.
    destruct (email_stored _ _); [|discriminate]. now intros [= <- _]. }
  split.
  { intros skip limit g. eexists. apply get_users_eq. }
  split.
  { intros user_id g e g'. rewrite get_user_eq.
    destruct (dict_get user_id (users_db g)); [discriminate|].
    now intros [= <- _]. }
  split.
  { intros user_id user_update g e g'. rewrite update_user_eq.
    destruct (dict_get user_id (users_db g)); [|intros [= <- _]; now left].
    destruct (email_conflict _ _ _); [|discriminate].
    intros [= <- _]. now right. }
  intros user_id g e g'. rewrite delete_user_eq.
  destruct (dict_contains user_id (users_db g)); [discriminate|].
  now intros [= <- _].
Qed.

(** X3: a request answered with an error status (400 and above) leaves
    [users_db] and [next_user_id] exactly as they were. *)
Theorem app_error_keeps_state (r : request) (g : globals) :
  400 <= status (fst (app r g)) ->
  snd (app r g) = g.
Proof.
  intros Herr.
  destruct (app_cases r g) as [[Hs _]|[[Hs _]|[[Hs _]|[_ Hg]]]];
    try (rewrite Hs in Herr; unfold HTTP_201_CREATED, HTTP_204_NO_CONTENT,
           HTTP_200_OK in Herr; lia).
  exact Hg.
Qed.

Lemma app_error_keeps_state_witness :
  snd (app (POST_users (UserCreate.mk "" "john@example.com" (-5)) 1002)
           two_users)
  = two_users.
Proof.
  apply (app_error_keeps_state
           (POST_users (UserCreate.mk "" "john@example.com" (-5)) 1002)
           two_users).
  vm_compute. discriminate.
Defined.

(** The safe routes. *)
Definition is_get (r : request) : bool :=
  match r with
  | GET_root | GET_health _ | GET_users _ _ | GET_user _ => true
  | _ => false
  end.

(** X4: the four GET routes (root, health, listing, one user) never change
    the state, found or not. *)
Theorem get_routes_read_only (r : request) (g : globals) :
  is_get r = true -> snd (app r g) = g.
Proof.
  destruct r as [|now|user now|skip limit|user_id|user_id user_update|user_id];
    simpl; try discriminate; intros _; try reflexivity.
  unfold serve. rewrite get_user_eq.
  now destruct (dict_get user_id (users_db g)).
Qed.

Lemma get_routes_read_only_witness :
  snd (app (GET_user 7) two_users) = two_users.
Proof. apply (get_routes_read_only (GET_user 7) two_users). reflexivity. Defined.

(** ** Missing ids *)

(** X1: on an id that is not in the registry, [get_user], [update_user]
    (whatever the fields of the request) and [delete_user] all raise
    "User not found" (404) and leave the state as it was. *)
Theorem missing_id_not_found (g : globals) (user_id : Z)
  (user_update : UserUpdate.t) :
  dict_get user_id (users_db g) = None ->
  get_user user_id g = (Raise user_not_found, g) /\
  update_user user_id user_update g = (Raise user_not_found, g) /\
  delete_user user_id g = (Raise user_not_found, g) /\
  app (GET_user user_id) g = (not_found_response, g) /\
  app (DELETE_user user_id) g = (not_found_response, g).
Proof.
  intros Hnone.
  assert (get_user user_id g = (Raise user_not_found, g)) as Hget
      by now rewrite get_user_eq, Hnone.
  assert (delete_user user_id g = (Raise user_not_found, g)) as Hdel.
  { rewrite delete_user_eq. unfold dict_contains. now rewrite Hnone. }
  split; [exact Hget|].
  split; [now rewrite update_user_eq, Hnone|].
  split; [exact Hdel|].
  split; simpl; unfold serve; [now rewrite Hget|now rewrite Hdel].
Qed.

Lemma missing_id_not_found_witness :
  get_user 999 two_users = (Raise user_not_found, two_users) /\
  update_user 999 take_johns_email two_users
  = (Raise user_not_found, two_users) /\
  delete_user 999 two_users = (Raise user_not_found, two_users) /\
  app (GET_user 999) two_users = (not_found_response, two_users) /\
  app (DELETE_user 999) two_users = (not_found_response, two_users).
Proof.
  apply (missing_id_not_found two_users 999 take_johns_email). reflexivity.
Defined.

(** ** Validation *)




(** X6: an update body that supplies a name (not null) of length outside
    1..100, or an age (not null) outside [0,150], is answered 422 whether or
    not the id exists, and no field is applied: the state is unchanged. *)
Theorem update_invalid_rejected (g : globals) (user_id : Z)
  (user_update : UserUpdate.t) :
  (exists s, UserUpdate.name user_update = UserUpdate.Supplied (Some s) /\
             ~ 1 <= len s <= 100) \/
  (exists a, UserUpdate.age user_update = UserUpdate.Supplied (Some a) /\
             ~ 0 <= a <= 150) ->
  exists errs,
    errs <> [] /\
    app (PUT_user user_id user_update) g
    = (mkResponse HTTP_422_UNPROCESSABLE_ENTITY (ValidationErrors errs), g).
Proof.
  intros Hbad. exists (UserUpdate.validate user_update).
  assert (UserUpdate.validate user_update <> []) as Hne.
  { unfold UserUpdate.validate.
    destruct Hbad as [[s [-> Hs]]|[a [-> Ha]]].
    - destruct ((1 <=? len s) && (len s <=? 100)) eqn:E; [|discriminate].
      apply andb_true_iff in E. destruct E as [E1 E2].
      apply Z.leb_le in E1, E2. lia.
    - destruct ((0 <=? a) && (a <=? 150)) eqn:E.
      + apply andb_true_iff in E. destruct E as [E1 E2].
        apply Z.leb_le in E1, E2. lia.
      + intros Happ. apply app_eq_nil in Happ. destruct Happ. discriminate. }
  split; [exact Hne|]. simpl.
  destruct (UserUpdate.validate user_update); [contradiction|reflexivity].
Qed.

Definition too_old : UserUpdate.t :=
  UserUpdate.mk (UserUpdate.Supplied (Some "Jane Doe")) UserUpdate.Unset
                (UserUpdate.Supplied (Some 151)) UserUpdate.Unset.

Lemma update_invalid_rejected_witness :
  exists errs,
    errs <> [] /\
    app (PUT_user 2 too_old) two_users
    = (mkResponse HTTP_422_UNPROCESSABLE_ENTITY (ValidationErrors errs),
       two_users).
Proof.
  apply (update_invalid_rejected two_users 2 too_old).
  right. exists 151. split; [reflexivity|lia].
Defined.

(** ** How creation composes *)

Lemma dict_set_in {V : Type} (k : Z) (v : V) (d : dict V) :
  In (k, v) (dict_set k v d).
Proof.
  induction d as [|[k' v'] d IH]; simpl; [now left|].
  destruct (k' =? k); [now left|now right].
Qed.

(** X7: after a call of [create_user], accepted or refused, a second call
    with the same email is refused with the conflict error and changes
    nothing: of two creations with one email at most the first succeeds. *)
Theorem create_twice_same_email (g g1 : globals) (user user' : UserCreate.t)
  (now now' : datetime) (res : result User.t) :
  create_user user now g = (res, g1) ->
  UserCreate.email user' = UserCreate.email user ->
  create_user user' now' g1 = (Raise email_already_registered, g1).
Proof.
  intros Hfirst Hmail. rewrite create_user_eq in Hfirst.
  rewrite create_user_eq, Hmail.
  destruct (email_stored (Some (UserCreate.email user)) (users_db g)) eqn:E.
  - injection Hfirst as _ <-. now rewrite E.
  - injection Hfirst as _ <-. simpl.
    rewrite (email_stored_true _ _ (next_user_id g)
               (new_user user now (next_user_id g))); [reflexivity| |reflexivity].
    apply dict_set_in.
Qed.

Lemma create_twice_same_email_witness :
  create_user (UserCreate.mk "Jane Doe" "jane@example.com" 52) 1005 two_users
  = (Raise email_already_registered, two_users).
Proof.
  apply (create_twice_same_email one_user two_users jane_request
           (UserCreate.mk "Jane Doe" "jane@example.com" 52) 1001 1005
           (Return jane)).
  - reflexivity.
  - reflexivity.
Defined.

(** X8: in a reachable state a creation that succeeds returns a record with
    the id of the counter, the name, email and age of the request, the
    given time and [is_active] true; it puts that record after all the
    stored ones, which stay as they are, and moves the counter one up. *)
Theorem create_user_effect (g g' : globals) (user : UserCreate.t)
  (now : datetime) (u : User.t) :
  reachable g ->
  create_user user now g = (Return u, g') ->
  u = User.mk (next_user_id g) (Some (UserCreate.name user))
              (Some (UserCreate.email user)) (Some (UserCreate.age user))
              now (Some true) /\
  users_db g' = users_db g ++ [(User.id u, u)] /\
  next_user_id g' = next_user_id g + 1 /\
  (forall k v, dict_get k (users_db g) = Some v ->
               dict_get k (users_db g') = Some v).
Proof.
  intros Hreach. pose proof (reachable_ok g Hreach) as Hok.
  rewrite create_user_eq. destruct (email_stored _ _); [discriminate|].
  intros [= <- <-]. simpl.
  assert (~ In (next_user_id g) (dict_keys (users_db g))) as Hnew.
  { intros Hin. apply (ok_bound g Hok) in Hin. lia. }
  split; [reflexivity|]. split; [now apply dict_set_fresh|].
  split; [reflexivity|].
  intros k v Hget. rewrite dict_get_set_other; [exact Hget|].
  intros <-. apply Hnew. apply dict_get_in in Hget.
  now apply in_keys with (v := v).
Qed.

Lemma create_user_effect_witness :
  jane = User.mk (next_user_id one_user) (Some (UserCreate.name jane_request))
                 (Some (UserCreate.email jane_request))
                 (Some (UserCreate.age jane_request)) 1001 (Some true) /\
  users_db two_users = users_db one_user ++ [(User.id jane, jane)] /\
  next_user_id two_users = next_user_id one_user + 1 /\
  (forall k v, dict_get k (users_db one_user) = Some v ->
               dict_get k (users_db two_users) = Some v).
Proof.
  apply (create_user_effect one_user two_users jane_request 1001 jane).
  - unfold reachable, one_user. repeat constructor.
  - reflexivity.
Defined.

(** ** How deletion composes *)

Lemma dict_get_del {V : Type} (k i : Z) (d : dict V) :
  dict_get k (dict_del i d) = if k =? i then None else dict_get k d.
Proof.
  destruct (k =? i) eqn:E.
  - apply Z.eqb_eq in E. subst k. apply dict_get_del_same.
  - apply Z.eqb_neq in E. unfold dict_del.
    induction d as [|[k' v'] d IH]; simpl; [reflexivity|].
    destruct (k' =? i) eqn:E'; simpl.
    + apply Z.eqb_eq in E'. subst k'.
      destruct (i =? k) eqn:E''; [apply Z.eqb_eq in E''; congruence|exact IH].
    + now rewrite IH.
Qed.

Lemma dict_del_absent {V : Type} (i : Z) (d : dict V) :
  ~ In i (dict_keys d) -> dict_del i d = d.
Proof.
  intros Hout. unfold dict_del. apply forallb_filter_id, forallb_forall.
  intros [k v] Hin. simpl. apply negb_true_iff, Z.eqb_neq. intros ->.
  apply Hout. now apply in_keys with (v := v).
Qed.

Lemma length_dict_del {V : Type} (i : Z) (d : dict V) :
  NoDup (dict_keys d) -> In i (dict_keys d) ->
  S (List.length (dict_del i d)) = List.length d.
Proof.
  induction d as [|[k v] d IH]; simpl; [tauto|].
  intros Hnd Hin. apply NoDup_cons_iff in Hnd. destruct Hnd as [Hk Hnd].
  destruct (k =? i) eqn:E; simpl.
  - apply Z.eqb_eq in E. subst k. fold (dict_del i d).
    now rewrite dict_del_absent.
  - apply Z.eqb_neq in E. destruct Hin as [Heq|Hin]; [contradiction|].
    fold (dict_del i d). now rewrite IH.
Qed.

Lemma values_del (i : Z) (db : dict User.t) :
  (forall k u, In (k, u) db -> User.id u = k) ->
  dict_values (dict_del i db)
  = filter (fun u => negb (User.id u =? i)) (dict_values db).
Proof.
  unfold dict_values, dict_del.
  induction db as [|[k u] db IH]; simpl; [reflexivity|].
  intros Hids. rewrite (Hids k u) by now left.
  destruct (k =? i); simpl; rewrite IH; auto.
Qed.

(** X9: once [delete_user] has succeeded on an id, deleting the same id
    again straight away raises "User not found" and changes nothing. *)
Theorem delete_twice (g g' : globals) (user_id : Z) (r : JSONResponse) :
  delete_user user_id g = (Return r, g') ->
  delete_user user_id g' = (Raise user_not_found, g') /\
  app (DELETE_user user_id) g' = (not_found_response, g').
Proof.
  rewrite delete_user_eq.
  destruct (dict_contains user_id (users_db g)); [|discriminate].
  intros [= _ <-].
  assert (delete_user user_id
            (mkGlobals (dict_del user_id (users_db g)) (next_user_id g))
          = (Raise user_not_found,
             mkGlobals (dict_del user_id (users_db g)) (next_user_id g)))
    as Hdel.
  { rewrite delete_user_eq. unfold dict_contains. simpl.
    now rewrite dict_get_del_same. }
  split; [exact Hdel|]. simpl. unfold serve. now rewrite Hdel.
Qed.

Lemma delete_twice_witness :
  delete_user 1 after_delete = (Raise user_not_found, after_delete) /\
  app (DELETE_user 1) after_delete = (not_found_response, after_delete).
Proof.
  apply (delete_twice two_users after_delete 1 deleted_response). reflexivity.
Defined.

(** X10: in a reachable state a deletion that succeeds takes exactly one
    record away: every other id reads as before, the listing is the old one
    without the record of that id, in the same order, one shorter, and the
    counter stays. *)
Theorem delete_user_effect (g g' : globals) (user_id : Z) (r : JSONResponse) :
  reachable g ->
  delete_user user_id g = (Return r, g') ->
  (forall k, k <> user_id ->
             dict_get k (users_db g') = dict_get k (users_db g)) /\
  dict_values (users_db g')
  = filter (fun u => negb (User.id u =? user_id)) (dict_values (users_db g)) /\
  S (List.length (users_db g')) = List.length (users_db g) /\
  next_user_id g' = next_user_id g.
Proof.
  intros Hreach. pose proof (reachable_ok g Hreach) as Hok.
  rewrite delete_user_eq.
  destruct (dict_contains user_id (users_db g)) eqn:Hin; [|discriminate].
  intros [= _ <-]. simpl. apply dict_contains_true in Hin.
  split.
  - intros k Hne. rewrite dict_get_del.
    destruct (k =? user_id) eqn:E; [apply Z.eqb_eq in E; contradiction|].
    reflexivity.
  - split; [apply values_del, (ok_ids g Hok)|].
    split; [|reflexivity].
    apply length_dict_del; [apply (ok_keys g Hok)|exact Hin].
Qed.

Lemma delete_user_effect_witness :
  (forall k, k <> 1 ->
             dict_get k (users_db after_delete)
             = dict_get k (users_db two_users)) /\
  dict_values (users_db after_delete)
  = filter (fun u => negb (User.id u =? 1)) (dict_values (users_db two_users)) /\
  S (List.length (users_db after_delete)) = List.length (users_db two_users) /\
  next_user_id after_delete = next_user_id two_users.
Proof.
  apply (delete_user_effect two_users after_delete 1 deleted_response).
  - exact reachable_two_users.
  - reflexivity.
Defined.

(** In a registry with distinct emails an email names its record. *)
Lemma email_names_record (db : dict User.t) (k k' : Z) (u u' : User.t) :
  NoDup (map User.email (dict_values db)) ->
  In (k, u) db -> In (k', u') db -> User.email u = User.email u' ->
  (k, u) = (k', u').
Proof.
  unfold dict_values. rewrite map_map.
  induction db as [|[k0 u0] db IH]; simpl; [tauto|].
  intros Hnd Hin Hin' Heq. apply NoDup_cons_iff in Hnd.
  destruct Hnd as [Hout Hnd].
  destruct Hin as [Hin|Hin], Hin' as [Hin'|Hin'].
  - congruence.
  - injection Hin as -> ->. exfalso. apply Hout. rewrite Heq.
    apply in_map_iff. now exists (k', u').
  - injection Hin' as -> ->. exfalso. apply Hout. rewrite <- Heq.
    apply in_map_iff. now exists (k, u).
  - now apply IH.
Qed.

(** X11: deleting a record frees its email: in a reachable state, after the
    record with email [e] is deleted, a creation with the email [e]
    succeeds, and its record gets the counter's value, not the freed id. *)
Theorem delete_frees_email (g g' : globals) (user_id : Z) (u : User.t)
  (r : JSONResponse) (user : UserCreate.t) (now : datetime) :
  reachable g ->
  dict_get user_id (users_db g) = Some u ->
  User.email u = Some (UserCreate.email user) ->
  delete_user user_id g = (Return r, g') ->
  exists u' g'',
    create_user user now g' = (Return u', g'') /\
    User.id u' = next_user_id g /\
    User.id u' <> user_id /\
    User.email u' = User.email u.
Proof.
  intros Hreach Hget Hmail. pose proof (reachable_ok g Hreach) as Hok.
  rewrite delete_user_eq.
  destruct (dict_contains user_id (users_db g)) eqn:Hin; [|discriminate].
  intros [= _ <-]. rewrite create_user_eq. simpl.
  assert (email_stored (Some (UserCreate.email user))
            (dict_del user_id (users_db g)) = false) as Hfree.
  { destruct (email_stored _ _) eqn:E; [|reflexivity].
    unfold email_stored in E. apply existsb_exists in E.
    destruct E as [v [Hv Heq]]. apply str_eq_spec in Heq.
    unfold dict_values in Hv. apply in_map_iff in Hv.
    destruct Hv as [[k v'] [Hsnd Hv]]. simpl in Hsnd. subst v'.
    apply dict_in_del in Hv. destruct Hv as [Hv Hne].
    exfalso. apply Hne.
    assert ((k, v) = (user_id, u)) as Hsame.
    { apply (email_names_record (users_db g)); auto.
      - apply (ok_emails g Hok).
      - now apply dict_get_in.
      - congruence. }
    congruence. }
  rewrite Hfree. eexists. eexists. split; [reflexivity|]. simpl.
  split; [reflexivity|]. split; [|now rewrite Hmail].
  apply dict_contains_true in Hin. apply (ok_bound g Hok) in Hin. lia.
Qed.

Lemma delete_frees_email_witness :
  exists u' g'',
    create_user john_request 1003 after_delete = (Return u', g'') /\
    User.id u' = next_user_id two_users /\
    User.id u' <> 1 /\
    User.email u' = User.email john.
Proof.
  apply (delete_frees_email two_users after_delete 1 john deleted_response
           john_request 1003).
  - exact reachable_two_users.
  - reflexivity.
  - reflexivity.
  - reflexivity.
Defined.

(** ** How update composes *)

(** X12: an update that succeeds returns the record that [get_user] then
    reads under the id; every supplied field holds the supplied value (a
    null included); the records under other ids, the order of the registry
    and the counter are as before. *)
Theorem update_user_effect (g g' : globals) (user_id : Z)
  (user_update : UserUpdate.t) (u' : User.t) :
  update_user user_id user_update g = (Return u', g') ->
  get_user user_id g' = (Return u', g') /\
  (forall v, UserUpdate.name user_update = UserUpdate.Supplied v ->
             User.name u' = v) /\
  (forall v, UserUpdate.email user_update = UserUpdate.Supplied v ->
             User.email u' = v) /\
  (forall v, UserUpdate.age user_update = UserUpdate.Supplied v ->
             User.age u' = v) /\
  (forall v, UserUpdate.is_active user_update = UserUpdate.Supplied v ->
             User.is_active u' = v) /\
  (forall k, k <> user_id ->
             dict_get k (users_db g') = dict_get k (users_db g)) /\
  dict_keys (users_db g') = dict_keys (users_db g) /\
  next_user_id g' = next_user_id g.
Proof.
  rewrite update_user_eq.
  destruct (dict_get user_id (users_db g)) as [u|] eqn:Hget; [|discriminate].
  destruct (email_conflict _ _ _); [discriminate|].
  intros [= <- <-]. rewrite get_user_eq. simpl.
  rewrite dict_get_mutate_same, Hget. simpl.
  split; [reflexivity|]. rewrite apply_update_fields. simpl.
  repeat split; try (intros v ->; reflexivity).
  - intros k Hne. apply dict_get_mutate_other. congruence.
  - apply dict_keys_mutate.
Qed.

Definition rename_and_retire : UserUpdate.t :=
  UserUpdate.mk (UserUpdate.Supplied (Some "J. Doe")) UserUpdate.Unset
                UserUpdate.Unset (UserUpdate.Supplied (Some false)).

Definition after_update : globals :=
  snd (update_user 1 rename_and_retire two_users).

Definition john_retired : User.t :=
  User.mk 1 (Some "J. Doe") (Some "john@example.com") (Some 30) 1000
          (Some false).

Lemma update_user_effect_witness :
  get_user 1 after_update = (Return john_retired, after_update) /\
  (forall v, UserUpdate.name rename_and_retire = UserUpdate.Supplied v ->
             User.name john_retired = v) /\
  (forall v, UserUpdate.email rename_and_retire = UserUpdate.Supplied v ->
             User.email john_retired = v) /\
  (forall v, UserUpdate.age rename_and_retire = UserUpdate.Supplied v ->
             User.age john_retired = v) /\
  (forall v, UserUpdate.is_active rename_and_retire = UserUpdate.Supplied v ->
             User.is_active john_retired = v) /\
  (forall k, k <> 1 ->
             dict_get k (users_db after_update)
             = dict_get k (users_db two_users)) /\
  dict_keys (users_db after_update) = dict_keys (users_db two_users) /\
  next_user_id after_update = next_user_id two_users.
Proof.
  apply (update_user_effect two_users after_update 1 rename_and_retire
           john_retired).
  reflexivity.
Defined.

Lemma email_of_another_mutate (user_id : Z) (e : option string)
  (f : User.t -> User.t) (db : dict User.t) :
  email_of_another user_id e (dict_mutate user_id f db)
  = email_of_another user_id e db.
Proof.
  unfold email_of_another, dict_items, dict_mutate.
  induction db as [|[k u] db IH]; simpl; [reflexivity|].
  rewrite IH. destruct (k =? user_id) eqn:E; simpl; now rewrite E.
Qed.

Lemma pick_pick {A : Type} (s : UserUpdate.slot A) (old : option A) :
  pick s (pick s old) = pick s old.
Proof. now destruct s. Qed.

(** X13: an update that succeeded succeeds again when it is repeated
    straight away, with the same record returned and the state unchanged by
    the second call. *)
Theorem update_user_idempotent (g g' : globals) (user_id : Z)
  (user_update : UserUpdate.t) (u' : User.t) :
  update_user user_id user_update g = (Return u', g') ->
  update_user user_id user_update g' = (Return u', g').
Proof.
  rewrite update_user_eq.
  destruct (dict_get user_id (users_db g)) as [u|] eqn:Hget; [|discriminate].
  destruct (email_conflict user_id user_update (users_db g)) eqn:Hconf;
    [discriminate|].
  intros [= <- <-]. rewrite update_user_eq. simpl.
  rewrite dict_get_mutate_same, Hget. simpl.
  assert (email_conflict user_id user_update
            (dict_mutate user_id
               (apply_update (UserUpdate.dict_exclude_unset user_update))
               (users_db g)) = false) as ->.
  { unfold email_conflict in *.
    destruct (UserUpdate.lookup_email _); [|reflexivity].
    now rewrite email_of_another_mutate. }
  assert (forall v,
             apply_update (UserUpdate.dict_exclude_unset user_update)
               (apply_update (UserUpdate.dict_exclude_unset user_update) v)
             = apply_update (UserUpdate.dict_exclude_unset user_update) v)
    as Hidem.
  { intros v. rewrite !apply_update_fields. simpl. now rewrite !pick_pick. }
  rewrite Hidem, dict_mutate_mutate.
  now rewrite (dict_mutate_ext user_id _ _ _ Hidem).
Qed.

Lemma update_user_idempotent_witness :
  update_user 1 rename_and_retire after_update
  = (Return john_retired, after_update).
Proof.
  apply (update_user_idempotent two_users after_update 1 rename_and_retire
           john_retired).
  reflexivity.
Defined.

(** X14: in a reachable state a stored record may be sent its own email:
    the uniqueness check passes over the record being updated, so the
    update succeeds and the email stays. *)
Theorem update_user_own_email (g : globals) (user_id : Z)
  (user_update : UserUpdate.t) (u : User.t) :
  reachable g ->
  dict_get user_id (users_db g) = Some u ->
  UserUpdate.email user_update = UserUpdate.Supplied (User.email u) ->
  exists u' g',
    update_user user_id user_update g = (Return u', g') /\
    User.email u' = User.email u.
Proof.
  intros Hreach Hget Hmail. pose proof (reachable_ok g Hreach) as Hok.
  rewrite update_user_eq, Hget.
  assert (email_conflict user_id user_update (users_db g) = false) as ->.
  { unfold email_conflict. rewrite lookup_email_slot, Hmail.
    destruct (email_of_another user_id (User.email u) (users_db g)) eqn:E;
      [|reflexivity].
    unfold email_of_another, dict_items in E. apply existsb_exists in E.
    destruct E as [[k v] [Hin Htest]]. simpl in Htest.
    apply andb_true_iff in Htest. destruct Htest as [Hne Heq].
    apply negb_true_iff, Z.eqb_neq in Hne. apply str_eq_spec in Heq.
    exfalso. apply Hne.
    assert ((k, v) = (user_id, u)) as Hsame.
    { apply (email_names_record (users_db g)); auto.
      - apply (ok_emails g Hok).
      - now apply dict_get_in. }
    congruence. }
  eexists. eexists. split; [reflexivity|].
  rewrite apply_update_fields. simpl. now rewrite Hmail.
Qed.

Definition same_email_new_age : UserUpdate.t :=
  UserUpdate.mk UserUpdate.Unset (UserUpdate.Supplied (Some "jane@example.com"))
                (UserUpdate.Supplied (Some 26)) UserUpdate.Unset.

Lemma update_user_own_email_witness :
  exists u' g',
    update_user 2 same_email_new_age two_users = (Return u', g') /\
    User.email u' = User.email jane.
Proof.
  apply (update_user_own_email two_users 2 same_email_new_age jane).
  - exact reachable_two_users.
  - reflexivity.
  - reflexivity.
Defined.

(** ** What no request changes *)

(** The record under [k], while there is one, has the creation time [c]. *)
Definition created_at_is (k : Z) (c : datetime) (g : globals) : Prop :=
  registry_ok g /\
  k < next_user_id g /\
  forall u, dict_get k (users_db g) = Some u -> User.created_at u = c.

Lemma created_at_is_step (k : Z) (c : datetime) (g g' : globals) :
  created_at_is k c g -> transition g g' -> created_at_is k c g'.
Proof.
  intros (Hok & Hlt & Hc) Htr.
  split; [now apply registry_ok_step with (g := g)|].
  destruct Htr as [|user now Hfresh|uid upd v Hget Hfree|uid Hin]; simpl.
  - now split.
  - split; [lia|]. intros u. rewrite dict_get_set_other by lia. apply Hc.
  - split; [exact Hlt|]. intros u.
    destruct (Z.eq_dec uid k) as [->|Hne].
    + rewrite dict_get_mutate_same.
      destruct (dict_get k (users_db g)) as [w|]; [|discriminate].
      simpl. intros [= <-]. rewrite apply_update_fields. simpl. now apply Hc.
    + rewrite dict_get_mutate_other by exact Hne. apply Hc.
  - split; [exact Hlt|]. intros u. rewrite dict_get_del.
    destruct (k =? uid); [discriminate|]. apply Hc.
Qed.

(** X15: a stored record keeps its [id] and [created_at] for as long as it
    is stored: if id [k] holds a record in a reachable state and still
    holds one after any further requests, the two have the same [id] (it
    is [k]) and the same [created_at]; an id is never given to a record
    created later. *)
Theorem id_and_created_at_stable (g g' : globals) (k : Z) (u u' : User.t) :
  reachable g ->
  reachable_from g g' ->
  dict_get k (users_db g) = Some u ->
  dict_get k (users_db g') = Some u' ->
  User.id u = k /\ User.id u' = k /\ User.created_at u' = User.created_at u.
Proof.
  intros Hreach Hlater Hget Hget'.
  pose proof (reachable_ok g Hreach) as Hok.
  assert (created_at_is k (User.created_at u) g') as (Hok' & _ & Hc).
  { apply (reachable_from_ind_inv (created_at_is k (User.created_at u))
             (created_at_is_step k (User.created_at u)) g g');
      [|exact Hlater].
    split; [exact Hok|]. split.
    - apply dict_get_in in Hget. apply in_keys in Hget.
      apply (ok_bound g Hok) in Hget. lia.
    - intros w Hw. congruence. }
  split; [apply (ok_ids g Hok), dict_get_in, Hget|].
  split; [apply (ok_ids g' Hok'), dict_get_in, Hget'|].
  now apply Hc.
Qed.

Lemma id_and_created_at_stable_witness :
  User.id john = 1 /\ User.id john_retired = 1 /\
  User.created_at john_retired = User.created_at john.
Proof.
  apply (id_and_created_at_stable two_users
           (snd (app (PUT_user 1 rename_and_retire) two_users))
           1 john john_retired).
  - exact reachable_two_users.
  - repeat constructor.
  - reflexivity.
  - reflexivity.
Defined.

(** ** More on listing *)

Lemma firstn_plus {A : Type} (a b : nat) (l : list A) :
  firstn (a + b) l = firstn a l ++ firstn b (skipn a l).
Proof.
  revert l. induction a as [|a IH]; intros l; simpl; [reflexivity|].
  destruct l as [|x l]; simpl.
  - now rewrite firstn_nil.
  - now rewrite IH.
Qed.

(** X16: pages tile the listing: for non-negative [skip], [l1] and [l2], the
    page of [l1] records at offset [skip] followed by the page of [l2]
    records at offset [skip + l1] is the page of [l1 + l2] records at
    offset [skip]; nothing is lost or repeated between consecutive pages. *)
Theorem get_users_pages_tile (g : globals) (skip l1 l2 : Z) :
  0 <= skip -> 0 <= l1 -> 0 <= l2 ->
  exists p1 p2,
    get_users skip l1 g = (Return p1, g) /\
    get_users (skip + l1) l2 g = (Return p2, g) /\
    get_users skip (l1 + l2) g = (Return (p1 ++ p2), g).
Proof.
  intros Hskip Hl1 Hl2. rewrite !get_users_eq.
  rewrite !slice_nonneg by lia. eexists. eexists.
  split; [reflexivity|]. split; [reflexivity|].
  f_equal. f_equal.
  replace (Z.to_nat (l1 + l2)) with (Z.to_nat l1 + Z.to_nat l2)%nat by lia.
  rewrite firstn_plus, skipn_skipn.
  now replace (Z.to_nat l1 + Z.to_nat skip)%nat
    with (Z.to_nat (skip + l1)) by lia.
Qed.

Lemma get_users_pages_tile_witness :
  exists p1 p2,
    get_users 0 1 two_users = (Return p1, two_users) /\
    get_users (0 + 1) 1 two_users = (Return p2, two_users) /\
    get_users 0 (1 + 1) two_users = (Return (p1 ++ p2), two_users).
Proof. apply (get_users_pages_tile two_users 0 1 1); lia. Defined.

(** X17: a negative [limit] is not refused: with [skip = 0] it is a stop
    index counted from the end, so the listing is all the records but the
    last [-limit] of them (none when there are not that many). *)
Theorem get_users_negative_limit (g : globals) (limit : Z) :
  limit < 0 ->
  get_users 0 limit g
  = (Return
       (firstn (Z.to_nat (Z.of_nat (List.length (users_db g)) + limit))
               (dict_values (users_db g))), g) /\
  app (GET_users None (Some limit)) g
  = (mkResponse HTTP_200_OK
       (UsersBody
          (firstn (Z.to_nat (Z.of_nat (List.length (users_db g)) + limit))
                  (dict_values (users_db g)))), g).
Proof.
  intros Hneg.
  assert (get_users 0 limit g
          = (Return
               (firstn (Z.to_nat (Z.of_nat (List.length (users_db g)) + limit))
                       (dict_values (users_db g))), g)) as Hget.
  { rewrite get_users_eq. unfold slice, slice_index.
    change (0 <? 0) with false. cbv iota.
    unfold dict_values at 1 2. rewrite length_map.
    replace (0 + limit <? 0) with true by (symmetry; apply Z.ltb_lt; lia).
    rewrite (Z.min_l 0) by lia. simpl skipn.
    f_equal. f_equal. f_equal. lia. }
  split; [exact Hget|]. simpl. unfold serve. now rewrite Hget.
Qed.

Lemma get_users_negative_limit_witness :
  get_users 0 (-1) two_users
  = (Return
       (firstn (Z.to_nat (Z.of_nat (List.length (users_db two_users)) + -1))
               (dict_values (users_db two_users))), two_users) /\
  app (GET_users None (Some (-1))) two_users
  = (mkResponse HTTP_200_OK
       (UsersBody
          (firstn (Z.to_nat (Z.of_nat (List.length (users_db two_users)) + -1))
                  (dict_values (users_db two_users)))), two_users).
Proof. apply (get_users_negative_limit two_users (-1)). lia. Defined.

Example negative_limit_drops_jane :
  get_users 0 (-1) two_users = (Return [john], two_users).
Proof. reflexivity. Qed.

(** ** Sequences of requests *)

(** The responses to a sequence of requests, and the state they leave. *)
Fixpoint run (rs : list request) (g : globals) : list response * globals :=
  match rs with
  | [] => ([], g)
  | r :: rest =>
      let (resp, g1) := app r g in
      let (resps, g2) := run rest g1 in
      (resp :: resps, g2)
  end.

(** How many of the responses carry the status [code]. *)
Definition count_status (code : Z) (resps : list response) : Z :=
  Z.of_nat (List.length (filter (fun resp => status resp =? code) resps)).

Lemma run_cons (r : request) (rest : list request) (g : globals) :
  run (r :: rest) g
  = (fst (app r g) :: fst (run rest (snd (app r g))),
     snd (run rest (snd (app r g)))).
Proof.
  simpl. destruct (app r g) as [resp g1]. simpl.
  now destruct (run rest g1) as [resps g2].
Qed.

Lemma count_status_cons (code : Z) (resp : response) (resps : list response) :
  count_status code (resp :: resps)
  = (if status resp =? code then 1 else 0) + count_status code resps.
Proof.
  unfold count_status. simpl filter.
  destruct (status resp =? code); simpl List.length; lia.
Qed.

Lemma run_reachable_from (rs : list request) (g : globals) :
  reachable_from g (snd (run rs g)).
Proof.
  revert g. induction rs as [|r rest IH]; intros g.
  - constructor.
  - rewrite run_cons. simpl.
    apply reachable_from_trans with (g2 := snd (app r g)); [|apply IH].
    repeat constructor.
Qed.

(** Decide the comparisons of two status constants in the goal. *)
Ltac status_eqb :=
  repeat match goal with
         | |- context [?a =? ?b] =>
             let v := eval vm_compute in (a =? b) in
             change (a =? b) with v
         end;
  cbv iota.

(** X18: the counter counts the creations: after any sequence of requests
    [next_user_id] is its starting value plus the number of responses 201;
    no deletion, update or refused request moves it. *)
Theorem counter_counts_creations (rs : list request) (g : globals) :
  next_user_id (snd (run rs g))
  = next_user_id g + count_status HTTP_201_CREATED (fst (run rs g)).
Proof.
  revert g. induction rs as [|r rest IH]; intros g.
  - unfold count_status. simpl. lia.
  - rewrite run_cons. simpl fst. simpl snd.
    rewrite count_status_cons, IH.
    destruct (app_cases r g) as [[Hs (user & now & _ & ->)]
                                |[[Hs (uid & _ & ->)]
                                 |[[Hs (uid & f & ->)]|[Hs ->]]]];
      simpl next_user_id; try rewrite Hs.
    + status_eqb. lia.
    + status_eqb. lia.
    + status_eqb. lia.
    + destruct Hs as [<-|[<-|[<-|[]]]]; status_eqb; lia.
Qed.

(** X19: starting from a reachable state, the number of stored records
    after any sequence of requests is the number before, plus the number of
    responses 201, minus the number of responses 204. *)
Theorem size_counts_creations_and_deletions (rs : list request)
  (g : globals) :
  reachable g ->
  Z.of_nat (List.length (users_db (snd (run rs g))))
  = Z.of_nat (List.length (users_db g))
    + count_status HTTP_201_CREATED (fst (run rs g))
    - count_status HTTP_204_NO_CONTENT (fst (run rs g)).
Proof.
  intros Hreach. pose proof (reachable_ok g Hreach) as Hok. clear Hreach.
  revert g Hok. induction rs as [|r rest IH]; intros g Hok.
  - unfold count_status. simpl. lia.
  - rewrite run_cons. simpl fst. simpl snd.
    rewrite !count_status_cons, IH
      by (apply registry_ok_step with (g := g);
          [exact Hok|apply app_transition]).
    destruct (app_cases r g) as [[Hs (user & now & _ & ->)]
                                |[[Hs (uid & Hin & ->)]
                                 |[[Hs (uid & f & ->)]|[Hs ->]]]];
      simpl users_db; try rewrite Hs.
    + status_eqb. rewrite dict_set_fresh, length_app; [simpl List.length; lia|].
      intros Hin. apply (ok_bound g Hok) in Hin. lia.
    + status_eqb. apply dict_contains_true in Hin.
      pose proof (length_dict_del uid (users_db g) (ok_keys g Hok) Hin). lia.
    + status_eqb. unfold dict_mutate. rewrite length_map. lia.
    + destruct Hs as [<-|[<-|[<-|[]]]]; status_eqb; lia.
Qed.

Definition busy_day : list request :=
  [POST_users (UserCreate.mk "Ann" "ann@example.com" 40) 1002;
   POST_users (UserCreate.mk "Bob" "john@example.com" 41) 1003;
   DELETE_user 1;
   DELETE_user 1;
   PUT_user 2 birthday;
   GET_users None None].

Lemma size_counts_creations_and_deletions_witness :
  Z.of_nat (List.length (users_db (snd (run busy_day two_users))))
  = Z.of_nat (List.length (users_db two_users))
    + count_status HTTP_201_CREATED (fst (run busy_day two_users))
    - count_status HTTP_204_NO_CONTENT (fst (run busy_day two_users)).
Proof.
  apply (size_counts_creations_and_deletions busy_day two_users).
  exact reachable_two_users.
Defined.

(** * test_api.py: the set-up of the endpoint tests *)

(** [TestFastAPIEndpoints.setup_method]: list the users with the default
    query, then delete every listed user by its id.  The listing is always
    answered with a list; the other payloads are there for totality. *)
Definition setup_method (g : globals) : globals :=
  let (response, g1) := app (GET_users None None) g in
  match payload response with
  | UsersBody users =>
      fold_left (fun g' user => snd (app (DELETE_user (User.id user)) g'))
                users g1
  | _ => g1
  end.

Lemma app_delete_state (user_id : Z) (g : globals) :
  snd (app (DELETE_user user_id) g)
  = mkGlobals (dict_del user_id (users_db g)) (next_user_id g).
Proof.
  simpl. unfold serve. rewrite delete_user_eq.
  destruct (dict_contains user_id (users_db g)) eqn:E; simpl; [reflexivity|].
  rewrite dict_del_absent; [now rewrite globals_eta|].
  intros Hin. apply dict_contains_true in Hin. congruence.
Qed.

Lemma fold_delete_state (users : list User.t) (g : globals) :
  fold_left (fun g' user => snd (app (DELETE_user (User.id user)) g')) users g
  = mkGlobals
      (fold_left (fun d user => dict_del (User.id user) d) users (users_db g))
      (next_user_id g).
Proof.
  revert g. induction users as [|u users IH]; intros g; cbn [fold_left].
  - now rewrite globals_eta.
  - rewrite IH, app_delete_state. reflexivity.
Qed.

(** Deleting the ids of the first [n] records, in order, leaves the rest. *)
Lemma delete_prefix (n : nat) (db : dict User.t) :
  NoDup (dict_keys db) ->
  (forall k u, In (k, u) db -> User.id u = k) ->
  fold_left (fun d user => dict_del (User.id user) d)
            (firstn n (dict_values db)) db
  = skipn n db.
Proof.
  revert db. induction n as [|n IH]; intros db Hnd Hids; [reflexivity|].
  destruct db as [|[k u] db]; [reflexivity|].
  unfold dict_values. cbn [map snd firstn skipn fold_left].
  apply NoDup_cons_iff in Hnd. destruct Hnd as [Hk Hnd].
  assert (dict_del (User.id u) ((k, u) :: db) = db) as ->.
  { rewrite (Hids k u) by now left. unfold dict_del. simpl.
    rewrite Z.eqb_refl. simpl. now apply dict_del_absent. }
  apply IH; [exact Hnd|]. intros k' u' Hin. apply Hids. now right.
Qed.

Lemma default_listing (g : globals) :
  app (GET_users None None) g
  = (mkResponse HTTP_200_OK
       (UsersBody (firstn 100 (dict_values (users_db g)))), g).
Proof.
  simpl. unfold serve. rewrite get_users_eq.
  now rewrite (slice_nonneg _ 0 100) by lia.
Qed.

(** X20: from a reachable state, the set-up of the endpoint tests removes
    the first 100 records and no other: the registry is left empty exactly
    when it held at most 100 users, and the counter is not reset, so ids
    keep growing from one test to the next. *)
Theorem setup_method_clears (g : globals) :
  reachable g ->
  users_db (setup_method g) = skipn 100 (users_db g) /\
  next_user_id (setup_method g) = next_user_id g /\
  (users_db (setup_method g) = [] <->
   (List.length (users_db g) <= 100)%nat).
Proof.
  intros Hreach. pose proof (reachable_ok g Hreach) as Hok.
  assert (setup_method g = mkGlobals (skipn 100 (users_db g)) (next_user_id g))
    as ->.
  { unfold setup_method. rewrite default_listing. cbn [payload].
    rewrite fold_delete_state.
    rewrite delete_prefix; [reflexivity|apply (ok_keys g Hok)
                           |apply (ok_ids g Hok)]. }
  cbn [users_db next_user_id].
  split; [reflexivity|]. split; [reflexivity|]. split.
  - intros Hnil. pose proof (length_skipn 100 (users_db g)) as Hlen.
    rewrite Hnil in Hlen. cbn [List.length] in Hlen. lia.
  - intros Hle. now apply skipn_all2.
Qed.

Lemma setup_method_clears_witness :
  users_db (setup_method two_users) = skipn 100 (users_db two_users) /\
  next_user_id (setup_method two_users) = next_user_id two_users /\
  (users_db (setup_method two_users) = [] <->
   (List.length (users_db two_users) <= 100)%nat).
Proof. apply (setup_method_clears two_users). exact reachable_two_users. Defined.
